(** * Promotion orchestration of the API server: PromoteSubscribers,
    findStageSubscribers and PromoteStage.

    The Go code of [internal/api/promote_subscribers_v1alpha1.go] is embedded
    as Rocq functions.  Calls to the function fields of the [server] struct
    run in a small state monad that threads the state of the outside world
    and records every call in a log, so that statements of the form
    "no collaborator is invoked" are statements about that log. *)

From Stdlib Require Import String Ascii List Bool Arith Lia Permutation.
Import ListNotations.

Set Implicit Arguments.
Set Warnings "-register-all".

(** ** Go strings: substrings and the [%q] verb *)

Module GoStr.

Local Open Scope string_scope.

Definition dquote : ascii := "034"%char.
Definition backslash : ascii := "092"%char.
Definition newline : string := String "010"%char EmptyString.

(** [s] has [sub] as a contiguous substring (Go: [strings.Contains]). *)
Definition Contains (s sub : string) : Prop :=
  exists pre post, s = pre ++ sub ++ post.

Fixpoint hasPrefix (p s : string) : bool :=
  match p, s with
  | EmptyString, _ => true
  | String a p', String b s' => Ascii.eqb a b && hasPrefix p' s'
  | String _ _, EmptyString => false
  end.

Fixpoint containsb (s sub : string) : bool :=
  hasPrefix sub s ||
  match s with
  | EmptyString => false
  | String _ s' => containsb s' sub
  end.

Definition lowerhex (n : nat) : ascii :=
  nth n ["0"; "1"; "2"; "3"; "4"; "5"; "6"; "7"; "8"; "9";
         "a"; "b"; "c"; "d"; "e"; "f"]%char "0"%char.

Definition str1 (c : ascii) : string := String c EmptyString.

(** [strconv.appendEscapedRune] on a rune below [utf8.RuneSelf]: the quote
    and the backslash are always backslashed, printable ASCII (0x20..0x7e) is
    kept, the seven control characters with a short escape use it, and every
    other byte is written as [\x] and two hexadecimal digits. *)
Definition escapeASCII (c : ascii) : string :=
  let n := nat_of_ascii c in
  if Ascii.eqb c dquote || Ascii.eqb c backslash then String backslash (str1 c)
  else if (32 <=? n)%nat && (n <? 127)%nat then str1 c
  else match n with
       | 7 => String backslash "a"
       | 8 => String backslash "b"
       | 12 => String backslash "f"
       | 10 => String backslash "n"
       | 13 => String backslash "r"
       | 9 => String backslash "t"
       | 11 => String backslash "v"
       | _ => String backslash
                (String "x" (String (lowerhex (n / 16)) (str1 (lowerhex (n mod 16)))))
       end.

Section Quote.

(** What [strconv.Quote] writes for a remainder of the string that starts at
    a byte >= 0x80: it decodes UTF-8 and consults the Unicode tables, both of
    which are outside this repository.  The loop of [strconv.Quote] only
    looks at the remainder, so this is a function of the remainder. *)
Variable quoteNonASCII : string -> string.

Fixpoint quoteBody (s : string) : string :=
  match s with
  | EmptyString => EmptyString
  | String c rest =>
      if (nat_of_ascii c <? 128)%nat then escapeASCII c ++ quoteBody rest
      else quoteNonASCII s
  end.

(** [fmt]'s [%q] on a string: [strconv.Quote]. *)
Definition quote (s : string) : string :=
  String dquote (quoteBody s ++ str1 dquote).

End Quote.

(** Bytes that [%q] leaves as they are. *)
Definition plainByte (c : ascii) : bool :=
  let n := nat_of_ascii c in
  (32 <=? n)%nat && (n <? 127)%nat
  && negb (Ascii.eqb c dquote) && negb (Ascii.eqb c backslash).

Fixpoint plain (s : string) : bool :=
  match s with
  | EmptyString => true
  | String c rest => plainByte c && plain rest
  end.

End GoStr.

(** ** Errors

    Go's [error] values as they occur in the handlers: a plain message
    ([errors.New], [errors.Errorf], [fmt.Errorf]), a connect error built by
    [connect.NewError] from a code and an underlying error (which Go allows to
    be nil), and the value of [errors.Join] over non-nil errors.  A nil
    [error] is [None : option error]. *)

Inductive Code : Type :=
| CodeCanceled | CodeUnknown | CodeInvalidArgument | CodeDeadlineExceeded
| CodeNotFound | CodeAlreadyExists | CodePermissionDenied
| CodeResourceExhausted | CodeFailedPrecondition | CodeAborted
| CodeOutOfRange | CodeUnimplemented | CodeInternal | CodeUnavailable
| CodeDataLoss | CodeUnauthenticated.

Inductive error : Type :=
| errorString (s : string)
| connectError (c : Code) (underlying : option error)
| joinError (errs : list error).

Definition NewError (c : Code) (underlying : option error) : error :=
  connectError c underlying.

(** [errors.Join]: nil when there is nothing to join. *)
Definition Join (errs : list error) : option error :=
  match errs with
  | [] => None
  | _ :: _ => Some (joinError errs)
  end.

Definition Code_String (c : Code) : string :=
  match c with
  | CodeCanceled => "canceled"
  | CodeUnknown => "unknown"
  | CodeInvalidArgument => "invalid_argument"
  | CodeDeadlineExceeded => "deadline_exceeded"
  | CodeNotFound => "not_found"
  | CodeAlreadyExists => "already_exists"
  | CodePermissionDenied => "permission_denied"
  | CodeResourceExhausted => "resource_exhausted"
  | CodeFailedPrecondition => "failed_precondition"
  | CodeAborted => "aborted"
  | CodeOutOfRange => "out_of_range"
  | CodeUnimplemented => "unimplemented"
  | CodeInternal => "internal"
  | CodeUnavailable => "unavailable"
  | CodeDataLoss => "data_loss"
  | CodeUnauthenticated => "unauthenticated"
  end%string.

(** The text of an error ([err.Error()]): a joined error prints its causes
    separated by newlines, a connect error prints its code and, when it has
    one, its message. *)
Fixpoint Error (e : error) : string :=
  match e with
  | errorString s => s
  | connectError c underlying =>
      match underlying with
      | None => Code_String c
      | Some u =>
          let message := Error u in
          match message with
          | EmptyString => Code_String c
          | _ => (Code_String c ++ ": " ++ message)%string
          end
      end
  | joinError errs =>
      (fix lines (l : list error) : string :=
         match l with
         | [] => EmptyString
         | [x] => Error x
         | x :: rest => (Error x ++ GoStr.newline ++ lines rest)%string
         end) errs
  end.

(** The [Code()] and [Message()] methods of a connect error. *)
Definition Code_of (e : error) : option Code :=
  match e with
  | connectError c _ => Some c
  | _ => None
  end.

Definition Message (e : error) : string :=
  match e with
  | connectError _ (Some u) => Error u
  | _ => EmptyString
  end.

(** ** Resources *)

Record NamespacedName : Type :=
  { nn_Namespace : string; nn_Name : string }.

Record StageSubscription : Type :=
  { StageSubscription_Name : string }.

Record Subscriptions : Type :=
  { UpstreamStages : list StageSubscription }.

Record StageSpec : Type :=
  { StageSpec_Subscriptions : option Subscriptions }.

(** [kargoapi.Stage]: [Spec] and [Spec.Subscriptions] are pointers. *)
Record Stage : Type :=
  { Stage_Namespace : string;
    Stage_Name : string;
    Stage_Spec : option StageSpec }.

(** Modelled from the spec: [kargoapi.Freight] is declared outside the
    sources; section 3 gives it a project namespace, a name and the set of
    stages it has been verified for. *)
Record Freight : Type :=
  { Freight_Namespace : string;
    Freight_Name : string;
    Freight_Qualifications : list string }.

(** Modelled from the spec: [kargoapi.Promotion] is declared outside the
    sources; section 3 makes it a (target stage, freight reference) record
    with an identity of its own. *)
Record Promotion : Type :=
  { Promotion_Namespace : string;
    Promotion_Name : string;
    Promotion_Stage : string;
    Promotion_Freight : string }.

Record PromoteSubscribersRequest : Type :=
  { GetProject : string; GetStage : string; GetFreight : string }.

Record PromoteStageRequest : Type :=
  { stageReq_GetProject : string;
    stageReq_GetName : string;
    stageReq_GetFreight : string }.

(** The result of a Go function that may panic on a nil dereference. *)
Inductive outcome (A : Type) : Type :=
| Returns (a : A)
| Panics.
Arguments Panics {A}.

(** ** Calls to the function fields of the server *)

Inductive Call : Type :=
| CallValidateProject (project : string)
| CallGetStage (key : NamespacedName)
| CallGetQualifiedFreight (key : NamespacedName) (stages : list string)
| CallFindStageSubscribers (stage : Stage)
| CallCreatePromotion (promo : Promotion)
| CallClientList (namespace : string).

Definition isCreate (c : Call) : bool :=
  match c with CallCreatePromotion _ => true | _ => false end.

Definition isFindSubscribers (c : Call) : bool :=
  match c with CallFindStageSubscribers _ | CallClientList _ => true | _ => false end.

Definition isGate (c : Call) : bool :=
  match c with CallGetQualifiedFreight _ _ => true | _ => false end.

(** ** The server and its handlers *)

Section Server.

(** State of everything outside the handlers: the resource store, the
    project validator, the source of fresh identifiers. *)
Variable World : Type.

(** Library code outside the repository: the non-ASCII part of [%q], the
    identifier source used for new Promotions, and the protobuf type of a
    Promotion with its conversion [typesv1alpha1.ToPromotionProto]. *)
Variable quoteNonASCII : string -> string.
Variable ulidMake : World -> string * World.
Variable PromotionProto : Type.
Variable ToPromotionProto : Promotion -> PromotionProto.

Abbreviation q := (GoStr.quote quoteNonASCII).

(** *** A state monad with a call log *)

Record St : Type := { world : World; calls : list Call }.

Definition M (A : Type) : Type := St -> A * St.

Definition ret {A : Type} (a : A) : M A := fun st => (a, st).

Definition bind {A B : Type} (m : M A) (k : A -> M B) : M B :=
  fun st => let (a, st') := m st in k a st'.

Notation "x <- m ;; k" := (bind m (fun x => k))
  (at level 61, m at next level, right associativity).
Notation "' p <- m ;; k" := (bind m (fun x => let p := x in k))
  (at level 61, p pattern, m at next level, right associativity).

(** Calling a function field: the call is appended to the log and the field
    runs on the world. *)
Definition invoke {A : Type} (c : Call) (f : World -> A * World) : M A :=
  fun st =>
    let (a, w) := f (world st) in
    (a, {| world := w; calls := calls st ++ [c] |}).

(** Reading the identifier source is not a call to a collaborator. *)
Definition freshName : M string :=
  fun st =>
    let (n, w) := ulidMake (world st) in
    (n, {| world := w; calls := calls st |}).

Definition start (w : World) : St := {| world := w; calls := [] |}.

(** *** The server struct

    Every field is a Go function value.  A Go function that returns
    [(x, err)] returns a pair here; [createPromotionFn] receives the new
    Promotion by pointer, so it also returns the value it leaves behind. *)
Record server : Type :=
  { validateProjectFn : string -> World -> option error * World;
    getStageFn : NamespacedName -> World -> (option Stage * option error) * World;
    getQualifiedFreightFn :
      NamespacedName -> list string -> World ->
      (option Freight * option error) * World;
    findStageSubscribersFn : Stage -> World -> (list Stage * option error) * World;
    createPromotionFn : Promotion -> World -> (Promotion * option error) * World;
    client_List : string -> World -> (list Stage * option error) * World }.

Record PromoteSubscribersResponse : Type :=
  { Promotions : list PromotionProto }.

Record PromoteStageResponse : Type :=
  { GetPromotion : PromotionProto }.

(** Modelled from the spec: [validateProjectAndStageNonEmpty] is defined
    outside the sources.  Section 4.5, step 1: project and stage name must be
    non-empty, InvalidArgument otherwise.  The spec fixes the code only; the
    texts are illustrative. *)
Definition validateProjectAndStageNonEmpty (project stage : string) : option error :=
  match project with
  | EmptyString =>
      Some (NewError CodeInvalidArgument
              (Some (errorString "project should not be empty")))
  | String _ _ =>
      match stage with
      | EmptyString =>
          Some (NewError CodeInvalidArgument
                  (Some (errorString "stage should not be empty")))
      | String _ _ => None
      end
  end.

(** Modelled from the spec: [kargo.NewPromotion] is defined outside the
    sources.  Section 4.4: pure construction from the target stage and the
    freight name, with a fresh identity. *)
Definition buildPromotion (stage : Stage) (freight ident : string) : Promotion :=
  {| Promotion_Namespace := Stage_Namespace stage;
     Promotion_Name := ident;
     Promotion_Stage := Stage_Name stage;
     Promotion_Freight := freight |}.

(** The identity is read from the identifier source, which makes two
    Promotions for the same Stage and Freight differ. *)
Definition NewPromotion (stage : Stage) (freight : string) : M Promotion :=
  ident <- freshName ;;
  ret (buildPromotion stage freight ident).

(** *** PromoteSubscribers *)

(** The loop over the subscribers, with its two accumulators. *)
Fixpoint promoteLoop (s : server) (freight : string) (subscribers : list Stage)
    (promoteErrs : list error) (createdPromos : list PromotionProto)
    : M (list error * list PromotionProto) :=
  match subscribers with
  | [] => ret (promoteErrs, createdPromos)
  | subscriber :: rest =>
      newPromo <- NewPromotion subscriber freight ;;
      r <- invoke (CallCreatePromotion newPromo) (createPromotionFn s newPromo) ;;
      match snd r with
      | Some err => promoteLoop s freight rest (promoteErrs ++ [err]) createdPromos
      | None =>
          promoteLoop s freight rest promoteErrs
            (createdPromos ++ [ToPromotionProto (fst r)])
      end
  end.

Definition PromoteSubscribers (s : server) (req : PromoteSubscribersRequest)
    : M (option PromoteSubscribersResponse * option error) :=
  match validateProjectAndStageNonEmpty (GetProject req) (GetStage req) with
  | Some err => ret (None, Some err)
  | None =>
  err <- invoke (CallValidateProject (GetProject req))
                (validateProjectFn s (GetProject req)) ;;
  match err with
  | Some err => ret (None, Some err)
  | None =>
  let key := {| nn_Namespace := GetProject req; nn_Name := GetStage req |} in
  r <- invoke (CallGetStage key) (getStageFn s key) ;;
  match snd r with
  | Some err => ret (None, Some (NewError CodeInternal (Some err)))
  | None =>
  match fst r with
  | None =>
      ret (None,
           Some (NewError CodeNotFound
                   (Some (errorString
                            ("Stage " ++ q (GetStage req)
                             ++ " not found in namespace "
                             ++ q (GetProject req))%string))))
  | Some stage =>
  let fkey := {| nn_Namespace := GetProject req; nn_Name := GetFreight req |} in
  let stages := [GetStage req] in
  r <- invoke (CallGetQualifiedFreight fkey stages)
              (getQualifiedFreightFn s fkey stages) ;;
  match snd r with
  | Some err => ret (None, Some (NewError CodeInternal (Some err)))
  | None =>
  match fst r with
  | None =>
      ret (None,
           Some (NewError CodeNotFound
                   (Some (errorString
                            ("no qualified Freight " ++ q (GetFreight req)
                             ++ " found in namespace "
                             ++ q (GetProject req))%string))))
  | Some _ =>
  r <- invoke (CallFindStageSubscribers stage) (findStageSubscribersFn s stage) ;;
  match snd r with
  | Some err => ret (None, Some (NewError CodeInternal (Some err)))
  | None =>
  let subscribers := fst r in
  match subscribers with
  | [] =>
      ret (None,
           Some (NewError CodeNotFound
                   (Some (errorString
                            ("Stage " ++ q (GetStage req)
                             ++ " has no subscribers")%string))))
  | _ :: _ =>
  r <- promoteLoop s (GetFreight req) subscribers [] [] ;;
  let promoteErrs := fst r in
  let createdPromos := snd r in
  let res := {| Promotions := createdPromos |} in
  match promoteErrs with
  | _ :: _ => ret (Some res, Some (NewError CodeInternal (Join promoteErrs)))
  | [] => ret (Some res, None)
  end
  end end end end end end end end.

(** *** findStageSubscribers *)

(** The inner loop: one append for every upstream entry that bears the name. *)
Fixpoint scanUpstreams (upstreams : list StageSubscription) (s : Stage)
    (name : string) (subscribers : list Stage) : list Stage :=
  match upstreams with
  | [] => subscribers
  | upstream :: rest =>
      if String.eqb (StageSubscription_Name upstream) name
      then scanUpstreams rest s name (subscribers ++ [s])
      else scanUpstreams rest s name subscribers
  end.

(** The outer loop over [allStages.Items]; [s.Spec.Subscriptions] panics on
    a Stage whose [Spec] is nil. *)
Fixpoint scanStages (items : list Stage) (stage : Stage)
    (subscribers : list Stage) : outcome (list Stage) :=
  match items with
  | [] => Returns subscribers
  | s :: rest =>
      match Stage_Spec s with
      | None => Panics
      | Some spec =>
          match StageSpec_Subscriptions spec with
          | None => scanStages rest stage subscribers
          | Some subs =>
              scanStages rest stage
                (scanUpstreams (UpstreamStages subs) s (Stage_Name stage) subscribers)
          end
      end
  end.

Definition findStageSubscribers (s : server) (stage : Stage)
    : M (outcome (list Stage * option error)) :=
  r <- invoke (CallClientList (Stage_Namespace stage))
              (client_List s (Stage_Namespace stage)) ;;
  match snd r with
  | Some err => ret (Returns ([], Some (NewError CodeInternal (Some err))))
  | None =>
      match scanStages (fst r) stage [] with
      | Panics => ret Panics
      | Returns subscribers => ret (Returns (subscribers, None))
      end
  end.

(** *** PromoteStage *)

(** The names of the upstream Stages a Stage subscribes to. *)
Definition upstreamNames (stage : Stage) : list string :=
  match Stage_Spec stage with
  | None => []
  | Some spec =>
      match StageSpec_Subscriptions spec with
      | None => []
      | Some subs => map StageSubscription_Name (UpstreamStages subs)
      end
  end.

(** Modelled from the spec: [PromoteStage] is defined outside the sources
    (only its test is present).  Section 4.5, steps 1 to 6: validate the
    project and the stage name; ask the project validator and hand its error
    on unchanged; read the Stage (store error: Internal, absent: NotFound);
    ask the qualification gate with the Stage's own name plus the names of
    its upstream Stages (store error: Internal, absent: NotFound); build the
    Promotion and write it (failure: Internal). *)
Definition PromoteStage (s : server) (req : PromoteStageRequest)
    : M (option PromoteStageResponse * option error) :=
  match validateProjectAndStageNonEmpty
          (stageReq_GetProject req) (stageReq_GetName req) with
  | Some err => ret (None, Some err)
  | None =>
  err <- invoke (CallValidateProject (stageReq_GetProject req))
                (validateProjectFn s (stageReq_GetProject req)) ;;
  match err with
  | Some err => ret (None, Some err)
  | None =>
  let key := {| nn_Namespace := stageReq_GetProject req;
                nn_Name := stageReq_GetName req |} in
  r <- invoke (CallGetStage key) (getStageFn s key) ;;
  match snd r with
  | Some err => ret (None, Some (NewError CodeInternal (Some err)))
  | None =>
  match fst r with
  | None =>
      ret (None,
           Some (NewError CodeNotFound
                   (Some (errorString
                            ("Stage " ++ q (stageReq_GetName req)
                             ++ " not found in namespace "
                             ++ q (stageReq_GetProject req))%string))))
  | Some stage =>
  let fkey := {| nn_Namespace := stageReq_GetProject req;
                 nn_Name := stageReq_GetFreight req |} in
  let stages := stageReq_GetName req :: upstreamNames stage in
  r <- invoke (CallGetQualifiedFreight fkey stages)
              (getQualifiedFreightFn s fkey stages) ;;
  match snd r with
  | Some err => ret (None, Some (NewError CodeInternal (Some err)))
  | None =>
  match fst r with
  | None =>
      ret (None,
           Some (NewError CodeNotFound
                   (Some (errorString
                            ("no qualified Freight " ++ q (stageReq_GetFreight req)
                             ++ " found in namespace "
                             ++ q (stageReq_GetProject req))%string))))
  | Some _ =>
  newPromo <- NewPromotion stage (stageReq_GetFreight req) ;;
  r <- invoke (CallCreatePromotion newPromo) (createPromotionFn s newPromo) ;;
  match snd r with
  | Some err => ret (None, Some (NewError CodeInternal (Some err)))
  | None => ret (Some {| GetPromotion := ToPromotionProto (fst r) |}, None)
  end
  end end end end end end.

End Server.

(** ** The Freight Qualification Gate *)

Definition qualifiedFor (f : Freight) (stages : list string) : bool :=
  existsb (fun c => existsb (String.eqb c) (Freight_Qualifications f)) stages.

(** Modelled from the spec: the qualification engine is outside the sources.
    Section 4.3: the named Freight is returned only if it exists and has
    qualification evidence for at least one of the candidate stage names;
    otherwise the answer is absent. *)
Definition GetQualifiedFreight (freights : list Freight) (key : NamespacedName)
    (stages : list string) : option Freight :=
  find (fun f =>
          String.eqb (Freight_Namespace f) (nn_Namespace key)
          && String.eqb (Freight_Name f) (nn_Name key)
          && qualifiedFor f stages)
       freights.

(** The subscriber relation of section 3: [x] declares an upstream Stage
    called [name]. *)
Definition subscribesTo (x : Stage) (name : string) : Prop :=
  In name (upstreamNames x).

(** What one listed Stage contributes to the result of the scan. *)
Definition contribution (name : string) (x : Stage) : list Stage :=
  match Stage_Spec x with
  | None => []
  | Some spec =>
      match StageSpec_Subscriptions spec with
      | None => []
      | Some subs => scanUpstreams (UpstreamStages subs) x name []
      end
  end.

Definition hasSpec (x : Stage) : Prop := Stage_Spec x <> None.

(** ** Describing a run of the fan-out loop *)

(** One pass of the loop body: the subscriber, the Promotion built for it,
    the Promotion as the creator left it, and the creator's error. *)
Record Attempt : Type :=
  { att_subscriber : Stage;
    att_built : Promotion;
    att_stored : Promotion;
    att_err : option error }.

Definition att_ok (a : Attempt) : bool :=
  match att_err a with None => true | Some _ => false end.

Definition succeeded (atts : list Attempt) : list Attempt := filter att_ok atts.

Definition failures (atts : list Attempt) : list error :=
  flat_map (fun a => match att_err a with Some e => [e] | None => [] end) atts.

(** The causes joined into the error a handler returns. *)
Definition joinedErrors (err : option error) : list error :=
  match err with
  | Some (connectError _ (Some (joinError errs))) => errs
  | _ => []
  end.

Section Runs.

Variable World : Type.
Variable s : server World.
Variable req : PromoteSubscribersRequest.

(** The handler gets past validation, the project validator and the Stage
    reader: it holds [stage] and is about to ask the qualification gate in
    world [w2]. *)
Definition reachesGate (w0 : World) (stage : Stage) (w2 : World) : Prop :=
  GetProject req <> EmptyString
  /\ GetStage req <> EmptyString
  /\ exists w1,
       validateProjectFn s (GetProject req) w0 = (None, w1)
       /\ getStageFn s {| nn_Namespace := GetProject req; nn_Name := GetStage req |} w1
          = ((Some stage, None), w2).

(** The handler also gets past the gate and is about to resolve the
    subscribers of [stage] in world [w3]. *)
Definition reachesResolver (w0 : World) (stage : Stage) (w3 : World) : Prop :=
  exists w2 freight,
    reachesGate w0 stage w2
    /\ getQualifiedFreightFn s
         {| nn_Namespace := GetProject req; nn_Name := GetFreight req |}
         [GetStage req] w2
       = ((Some freight, None), w3).

(** [a] records a pass of the loop for the freight name [freight]: its
    Promotion was built from its subscriber and [freight], and the creator
    answered that Promotion with what [a] records. *)
Definition attemptOf (freight : string) (a : Attempt) : Prop :=
  (exists ident, att_built a = buildPromotion (att_subscriber a) freight ident)
  /\ exists w, fst (createPromotionFn s (att_built a) w) = (att_stored a, att_err a).

(** The log of a run that got as far as resolving the subscribers. *)
Definition prefixCalls (stage : Stage) : list Call :=
  [ CallValidateProject (GetProject req);
    CallGetStage {| nn_Namespace := GetProject req; nn_Name := GetStage req |};
    CallGetQualifiedFreight
      {| nn_Namespace := GetProject req; nn_Name := GetFreight req |}
      [GetStage req];
    CallFindStageSubscribers stage ].

End Runs.

(** ** Concrete servers

    Stub servers in the style of the handler tests: the world is a counter
    that numbers the identifiers, Promotions are returned as they are, and
    the names are ASCII. *)

Module Fake.

Local Open Scope string_scope.

Definition ulidMake (n : nat) : string * nat :=
  ("ulid" ++ String (ascii_of_nat (48 + n mod 10)) EmptyString, S n).

Definition quoteNonASCII (s : string) : string := s.

Definition ToPromotionProto (p : Promotion) : Promotion := p.

Definition subscribing (name : string) (upstreams : list string) : Stage :=
  {| Stage_Namespace := "fake-project";
     Stage_Name := name;
     Stage_Spec :=
       Some {| StageSpec_Subscriptions :=
                 Some {| UpstreamStages :=
                           map (fun u => {| StageSubscription_Name := u |}) upstreams |} |} |}.

Definition stageA : Stage :=
  {| Stage_Namespace := "fake-project";
     Stage_Name := "A";
     Stage_Spec := Some {| StageSpec_Subscriptions := None |} |}.
Definition stageB : Stage := subscribing "B" ["A"].
Definition stageX : Stage := subscribing "X" ["A"; "A"].
Definition stageS : Stage := subscribing "S" ["S"].
Definition stageC : Stage := subscribing "C" ["A"].

Definition fakeFreight : Freight :=
  {| Freight_Namespace := "fake-project";
     Freight_Name := "fake-freight";
     Freight_Qualifications := ["A"] |}.

(** A Stage with two upstream Stages and a Freight verified for the second
    of them only. *)
Definition stageD : Stage := subscribing "D" ["U1"; "U2"].

Definition freightU2 : Freight :=
  {| Freight_Namespace := "fake-project";
     Freight_Name := "fake-freight";
     Freight_Qualifications := ["U2"] |}.

Definition wentWrong : error := errorString "something went wrong".

(** A server whose Stage reader finds [stage], whose gate answers [gate],
    whose resolver answers [subscribers] and whose creator fails for the
    Stages named in [failing]. *)
Definition fakeServer (stage : option Stage) (gate : option Freight)
    (subscribers : list Stage) (failing : list string) : server nat :=
  {| validateProjectFn := fun _ w => (None, w);
     getStageFn := fun _ w => ((stage, None), w);
     getQualifiedFreightFn := fun _ _ w => ((gate, None), w);
     findStageSubscribersFn := fun _ w => ((subscribers, None), w);
     createPromotionFn :=
       fun p w =>
         if existsb (String.eqb (Promotion_Stage p)) failing
         then ((p, Some wentWrong), w)
         else ((p, None), w);
     client_List := fun _ w => ((stageA :: subscribers, None), w) |}.

(** A server whose gate is the qualification gate over a list of Freight. *)
Definition gatedServer (stage : Stage) (freights : list Freight) : server nat :=
  {| validateProjectFn := fun _ w => (None, w);
     getStageFn := fun _ w => ((Some stage, None), w);
     getQualifiedFreightFn :=
       fun key stages w => ((GetQualifiedFreight freights key stages, None), w);
     findStageSubscribersFn := fun _ w => (([], None), w);
     createPromotionFn := fun p w => ((p, None), w);
     client_List := fun _ w => (([], None), w) |}.

Definition request (project stage freight : string) : PromoteSubscribersRequest :=
  {| GetProject := project; GetStage := stage; GetFreight := freight |}.

Definition stageRequest (project name freight : string) : PromoteStageRequest :=
  {| stageReq_GetProject := project;
     stageReq_GetName := name;
     stageReq_GetFreight := freight |}.

(** The server of the partial-failure scenario: the subscribers of A are B
    and C, and the write for B fails. *)
Definition cascade : server nat :=
  fakeServer (Some stageA) (Some fakeFreight) [stageB; stageC] ["B"].

Definition fromA : PromoteSubscribersRequest :=
  request "fake-project" "A" "fake-freight".

(** A server whose gate looks the Freight up, and a request that names a
    project and a Stage but no Freight. *)
Definition gated : server nat := gatedServer stageA [fakeFreight].

Definition noFreight : PromoteSubscribersRequest := request "fake-project" "A" "".

Definition runSubscribers (s : server nat) (r : PromoteSubscribersRequest) :=
  PromoteSubscribers quoteNonASCII ulidMake ToPromotionProto s r (start 0).

Definition runStage (s : server nat) (r : PromoteStageRequest) :=
  PromoteStage quoteNonASCII ulidMake ToPromotionProto s r (start 0).

End Fake.

(** ** The [delete stage] command

    The [RunE] closure of [newStageCommand]: it obtains the API client,
    requires a project, and asks the service to delete every name of the
    compacted argument list, printing a line per deleted Stage and joining
    the failures. *)

Module DeleteStage.

(** The errors the command builds: [errors.New] and [pkgerrors.New], a
    service error wrapped by [pkgerrors.Wrap] with a message, and the value
    of [errors.Join]. *)
Inductive cliError : Type :=
| New (msg : string)
| Wrap (cause : error) (msg : string)
| Joined (errs : list cliError).

(** [errors.Join(resErr, err)] for a non-nil [err]: nil arguments are
    dropped and the others are kept as they are, in order. *)
Definition Join2 (resErr : option cliError) (err : cliError) : option cliError :=
  match resErr with
  | None => Some (Joined [err])
  | Some r => Some (Joined [r; err])
  end.

(** [err.Error()]: a wrapped error prints its message, a colon and its
    cause; a joined error prints its parts separated by newlines. *)
Fixpoint cliText (e : cliError) : string :=
  match e with
  | New msg => msg
  | Wrap cause msg => (msg ++ ": " ++ Error cause)%string
  | Joined errs =>
      (fix lines (l : list cliError) : string :=
         match l with
         | [] => EmptyString
         | [x] => cliText x
         | x :: rest => (cliText x ++ GoStr.newline ++ lines rest)%string
         end) errs
  end.

(** [slices.Compact] of golang.org/x/exp: every run of consecutive equal
    elements is replaced by a single copy. *)
Fixpoint Compact (s : list string) : list string :=
  match s with
  | [] => []
  | x :: rest =>
      match rest with
      | [] => [x]
      | y :: _ => if String.eqb x y then Compact rest else x :: Compact rest
      end
  end.

(** Lines joined by newlines, as [errors.Join] prints them. *)
Fixpoint joinLines (l : list string) : string :=
  match l with
  | [] => EmptyString
  | [x] => x
  | x :: rest => (x ++ GoStr.newline ++ joinLines rest)%string
  end.

Section Command.

Variable World : Type.
Variable quoteNonASCII : string -> string.

(** The two calls the command makes to the outside: reading the client from
    the configuration and the [DeleteStage] request of that client, with the
    project and the Stage name. *)
Record Env : Type :=
  { GetClientFromConfig : World -> option error * World;
    DeleteStageRPC : string -> string -> World -> option error * World }.

(** The outside world, the [DeleteStage] requests sent so far and the text
    written to [opt.IOStreams.Out]. *)
Record Term : Type :=
  { tworld : World;
    requests : list (string * string);
    out : string }.

Definition deletedLine (name : string) : string :=
  ("Stage Deleted: " ++ GoStr.quote quoteNonASCII name ++ GoStr.newline)%string.

(** The loop over the compacted names, with [resErr]. *)
Fixpoint deleteLoop (env : Env) (project : string) (names : list string)
    (resErr : option cliError) (t : Term) : option cliError * Term :=
  match names with
  | [] => (resErr, t)
  | name :: rest =>
      let (err, w) := DeleteStageRPC env project name (tworld t) in
      let sent := requests t ++ [(project, name)] in
      match err with
      | Some err =>
          deleteLoop env project rest (Join2 resErr (Wrap err "Error"))
            {| tworld := w; requests := sent; out := out t |}
      | None =>
          deleteLoop env project rest resErr
            {| tworld := w; requests := sent;
               out := (out t ++ deletedLine name)%string |}
      end
  end.

(** [opt.Project.OrElse("")]. *)
Definition OrElse (o : option string) (d : string) : string :=
  match o with Some v => v | None => d end.

Definition RunE (env : Env) (optProject : option string) (args : list string)
    (t : Term) : option cliError * Term :=
  let (err, w) := GetClientFromConfig env (tworld t) in
  let t1 := {| tworld := w; requests := requests t; out := out t |} in
  match err with
  | Some _ => (Some (New "get client from config"), t1)
  | None =>
      let project := OrElse optProject EmptyString in
      match project with
      | EmptyString => (Some (New "project is required"), t1)
      | String _ _ => deleteLoop env project (Compact args) None t1
      end
  end.

Definition fresh (w : World) : Term :=
  {| tworld := w; requests := []; out := EmptyString |}.

End Command.

(** What the service answered to the request for one name. *)
Definition failed (r : string * option error) : list error :=
  match snd r with Some e => [e] | None => [] end.

Definition deleted (r : string * option error) : bool :=
  match snd r with Some _ => false | None => true end.

(** The text of a wrapped service error. *)
Definition wrapText (e : error) : string := ("Error: " ++ Error e)%string.

(** The value of [resErr] after the failures [fails] have been joined to it
    one after the other. *)
Definition joinAll (resErr : option cliError) (fails : list error) : option cliError :=
  fold_left (fun r e => Join2 r (Wrap e "Error")) fails resErr.

Definition appendAll (l : list string) : string := fold_right String.append EmptyString l.

(** No two neighbours of the list are equal. *)
Fixpoint noAdjacentDup (l : list string) : bool :=
  match l with
  | [] => true
  | x :: rest =>
      match rest with
      | [] => true
      | y :: _ => negb (String.eqb x y) && noAdjacentDup rest
      end
  end.

(** A stub service that refuses the names in [failing]. *)
Definition stubEnv (clientErr : option error) (failing : list string) : Env nat :=
  {| GetClientFromConfig := fun w => (clientErr, w);
     DeleteStageRPC :=
       fun _ name w =>
         if existsb (String.eqb name) failing
         then (Some (errorString ("cannot delete " ++ name)), S w)
         else (None, S w) |}.

End DeleteStage.

(** ** The servers of the handler tests

    The stub servers of [TestPromoteStage]; a field that a test case leaves
    unset is a stub that fails, so that a call to it would show. *)

Module TestCases.

Local Open Scope string_scope.

Definition somethingWentWrong : error := errorString "something went wrong".



Definition testServer (project : option error)
    (stage : option Stage * option error)
    (freight : option Freight * option error)
    (create : option error) : server nat :=
  {| validateProjectFn := fun _ w => (project, w);
     getStageFn := fun _ w => (stage, w);
     getQualifiedFreightFn := fun _ _ w => (freight, w);
     findStageSubscribersFn := fun _ w => (([], Some somethingWentWrong), w);
     createPromotionFn := fun p w => ((p, create), w);
     client_List := fun _ w => (([], Some somethingWentWrong), w) |}.

Definition fakeRequest : PromoteStageRequest :=
  {| stageReq_GetProject := "fake-project";
     stageReq_GetName := "fake-stage";
     stageReq_GetFreight := "fake-freight" |}.

Definition fakeSubscribersRequest : PromoteSubscribersRequest :=
  {| GetProject := "fake-project";
     GetStage := "fake-stage";
     GetFreight := "fake-freight" |}.

End TestCases.

(** A server whose resolver answers B and C and whose creator answers every
    Promotion with [create]. *)
Definition cascadeWith (create : option error) : server nat :=
  {| validateProjectFn := fun _ w => (None, w);
     getStageFn := fun _ w => ((Some Fake.stageA, None), w);
     getQualifiedFreightFn := fun _ _ w => ((Some Fake.fakeFreight, None), w);
     findStageSubscribersFn := fun _ w => (([Fake.stageB; Fake.stageC], None), w);
     createPromotionFn := fun p w => ((p, create), w);
     client_List := fun _ w => (([Fake.stageA; Fake.stageB; Fake.stageC], None), w) |}.

(** A Stage value to stand for "no Stage was read". *)
Definition noStage : Stage :=
  {| Stage_Namespace := EmptyString; Stage_Name := EmptyString; Stage_Spec := None |}.

(** The number of upstream entries of [x] that bear [name]. *)
Definition upstreamCount (name : string) (x : Stage) : nat :=
  count_occ string_dec (upstreamNames x) name.

(** * Properties *)

(** ** Substrings and quoting *)

Module GoStrFacts.
Import GoStr.

Local Open Scope string_scope.

Lemma app_assoc (a b c : string) : (a ++ b) ++ c = a ++ (b ++ c).
Proof. induction a as [| x a IH]; simpl; [reflexivity | now rewrite IH]. Qed.

Lemma app_nil_r (a : string) : a ++ "" = a.
Proof. induction a as [| x a IH]; simpl; [reflexivity | now rewrite IH]. Qed.

Lemma hasPrefix_iff (p s : string) :
  hasPrefix p s = true <-> exists post, s = p ++ post.
Proof.
  revert s; induction p as [| a p IH]; intros s; simpl.
  - split; [intros _; now exists s | reflexivity].
  - destruct s as [| b s].
    + split; [discriminate | intros [post H]; discriminate].
    + rewrite andb_true_iff, Ascii.eqb_eq, IH. split.
      * intros [-> [post ->]]. now exists post.
      * intros [post H]. injection H as -> ->. split; [reflexivity | now exists post].
Qed.

Lemma Contains_here (sub post : string) : Contains (sub ++ post) sub.
Proof. now exists "", post. Qed.

Lemma Contains_skip (pre s sub : string) : Contains s sub -> Contains (pre ++ s) sub.
Proof.
  intros [a [b ->]]. exists (pre ++ a), b. now rewrite app_assoc.
Qed.

Lemma Contains_refl (s : string) : Contains s s.
Proof. exists "", "". simpl. now rewrite app_nil_r. Qed.

Lemma Contains_trans (s t u : string) : Contains s t -> Contains t u -> Contains s u.
Proof.
  intros [a [b ->]] [c [d ->]]. exists (a ++ c), (d ++ b).
  now rewrite !app_assoc.
Qed.

Lemma containsb_iff (s sub : string) : containsb s sub = true <-> Contains s sub.
Proof.
  induction s as [| a s IH]; simpl; rewrite orb_true_iff.
  - rewrite hasPrefix_iff. split.
    + intros [[post H] | H]; [| discriminate]. rewrite H. apply Contains_here.
    + intros [pre [post H]]. left.
      destruct pre; [now exists post | discriminate].
  - rewrite IH, hasPrefix_iff. split.
    + intros [[post H] | H].
      * rewrite H. apply Contains_here.
      * apply (Contains_skip (str1 a)) in H. exact H.
    + intros [pre [post H]]. destruct pre as [| x pre].
      * left. now exists post.
      * right. simpl in H. injection H as _ ->. now exists pre, post.
Qed.

Lemma plainByte_escape (c : ascii) :
  plainByte c = true ->
  (nat_of_ascii c <? 128)%nat = true /\ escapeASCII c = str1 c.
Proof.
  unfold plainByte, escapeASCII. cbv zeta.
  rewrite !andb_true_iff, !negb_true_iff.
  intros [[[Hlo Hhi] Hq] Hb]. rewrite Hq, Hb, Hlo, Hhi. simpl. split; [| reflexivity].
  apply Nat.ltb_lt. apply Nat.ltb_lt in Hhi. lia.
Qed.

Lemma quoteBody_plain (qn : string -> string) (s : string) :
  plain s = true -> quoteBody qn s = s.
Proof.
  induction s as [| c s IH]; simpl; [reflexivity |].
  rewrite andb_true_iff. intros [Hc Hs].
  destruct (plainByte_escape c Hc) as [-> ->]. simpl. now rewrite IH.
Qed.

(** A name that needs no escaping is printed between two double quotes. *)
Lemma quote_plain (qn : string -> string) (s : string) :
  plain s = true -> quote qn s = String dquote (s ++ str1 dquote).
Proof. intros H. unfold quote. now rewrite quoteBody_plain. Qed.

Lemma quote_plain_Contains (qn : string -> string) (s : string) :
  plain s = true -> Contains (quote qn s) s.
Proof.
  intros H. rewrite quote_plain by exact H.
  now exists (str1 dquote), (str1 dquote).
Qed.

End GoStrFacts.

(** ** The fan-out loop *)

Lemma succeeded_failures_length (atts : list Attempt) :
  length (succeeded atts) + length (failures atts) = length atts.
Proof.
  induction atts as [| a atts IH]; simpl; [reflexivity |].
  unfold att_ok. destruct (att_err a); simpl; lia.
Qed.

Lemma filter_isCreate_attempts (atts : list Attempt) :
  filter isCreate (map (fun a => CallCreatePromotion (att_built a)) atts)
  = map (fun a => CallCreatePromotion (att_built a)) atts.
Proof. induction atts as [| a atts IH]; simpl; [reflexivity | now rewrite IH]. Qed.

Lemma filter_isGate_attempts (atts : list Attempt) :
  filter isGate (map (fun a => CallCreatePromotion (att_built a)) atts) = [].
Proof. induction atts as [| a atts IH]; simpl; [reflexivity | exact IH]. Qed.

Section Handlers.

Variable World : Type.
Variable quoteNonASCII : string -> string.
Variable ulidMake : World -> string * World.
Variable PromotionProto : Type.
Variable ToPromotionProto : Promotion -> PromotionProto.
Variable s : server World.

Abbreviation q := (GoStr.quote quoteNonASCII).
Abbreviation loop := (promoteLoop ulidMake ToPromotionProto s).
Abbreviation promoteSubscribers := (PromoteSubscribers quoteNonASCII ulidMake ToPromotionProto s).
Abbreviation promoteStage := (PromoteStage quoteNonASCII ulidMake ToPromotionProto s).
Abbreviation created := (map (fun a => CallCreatePromotion (att_built a))).
Abbreviation protos := (map (fun a => ToPromotionProto (att_stored a))).

(** Every pass builds a Promotion for its subscriber, hands it to the
    creator, and appends to exactly one of the two accumulators. *)
Lemma promoteLoop_run (freight : string) (L : list Stage) :
  forall (errs : list error) (promos : list PromotionProto) (st : St World),
  exists atts w',
    loop freight L errs promos st
    = ((errs ++ failures atts, promos ++ protos (succeeded atts)),
       {| world := w'; calls := calls st ++ created atts |})
    /\ map att_subscriber atts = L
    /\ Forall (attemptOf s freight) atts.
Proof.
  induction L as [| subscriber rest IH]; intros errs promos st.
  - exists [], (world st). simpl. rewrite !app_nil_r.
    destruct st; repeat split; constructor.
  - simpl. unfold bind, NewPromotion, bind, freshName, ret, invoke. simpl.
    destruct (ulidMake (world st)) as [ident w1] eqn:Hid. simpl.
    destruct (createPromotionFn s (buildPromotion subscriber freight ident) w1)
      as [[stored err] w2] eqn:Hcreate.
    simpl. set (built := buildPromotion subscriber freight ident) in *.
    pose (a := {| att_subscriber := subscriber; att_built := built;
                  att_stored := stored; att_err := err |}).
    assert (Ha : attemptOf s freight a).
    { split; [now exists ident | exists w1; simpl; now rewrite Hcreate]. }
    destruct err as [e |].
    + destruct (IH (errs ++ [e]) promos
                  {| world := w2; calls := calls st ++ [CallCreatePromotion built] |})
        as [atts [w' [Hrun [Hmap Hall]]]].
      exists (a :: atts), w'. rewrite Hrun. simpl. rewrite <- !app_assoc. simpl.
      repeat split; [now rewrite Hmap | now constructor].
    + destruct (IH errs (promos ++ [ToPromotionProto stored])
                  {| world := w2; calls := calls st ++ [CallCreatePromotion built] |})
        as [atts [w' [Hrun [Hmap Hall]]]].
      exists (a :: atts), w'. rewrite Hrun. simpl. rewrite <- !app_assoc. simpl.
      repeat split; [now rewrite Hmap | now constructor].
Qed.

(** ** Reaching the steps of PromoteSubscribers *)

Lemma validate_nonempty (project stage : string) :
  project <> EmptyString -> stage <> EmptyString ->
  validateProjectAndStageNonEmpty project stage = None.
Proof.
  intros Hp Hs. unfold validateProjectAndStageNonEmpty.
  destruct project; [contradiction |]. destruct stage; [contradiction | reflexivity].
Qed.

Lemma validate_empty (project stage : string) :
  project = EmptyString \/ stage = EmptyString ->
  exists e, validateProjectAndStageNonEmpty project stage = Some e
            /\ Code_of e = Some CodeInvalidArgument.
Proof.
  intros H. unfold validateProjectAndStageNonEmpty.
  destruct project as [| a project].
  - eexists; split; reflexivity.
  - destruct stage as [| b stage].
    + eexists; split; reflexivity.
    + destruct H; discriminate.
Qed.

Variable req : PromoteSubscribersRequest.

Abbreviation fkey :=
  {| nn_Namespace := GetProject req; nn_Name := GetFreight req |}.
Abbreviation skey :=
  {| nn_Namespace := GetProject req; nn_Name := GetStage req |}.

(** Past the Stage reader, the handler asks the gate, and what follows
    depends on the gate's answer only. *)
Lemma PromoteSubscribers_at_gate (w0 : World) (stage : Stage) (w2 : World) :
  reachesGate s req w0 stage w2 ->
  promoteSubscribers req (start w0)
  = (let st2 := {| world := w2;
                   calls := [CallValidateProject (GetProject req); CallGetStage skey] |} in
     let g := invoke (CallGetQualifiedFreight fkey [GetStage req])
                     (getQualifiedFreightFn s fkey [GetStage req]) st2 in
     match snd (fst g) with
     | Some err => ((None, Some (NewError CodeInternal (Some err))), snd g)
     | None =>
         match fst (fst g) with
         | None =>
             ((None,
               Some (NewError CodeNotFound
                       (Some (errorString
                                ("no qualified Freight " ++ q (GetFreight req)
                                 ++ " found in namespace "
                                 ++ q (GetProject req))%string)))),
              snd g)
         | Some _ =>
             let r := invoke (CallFindStageSubscribers stage)
                             (findStageSubscribersFn s stage) (snd g) in
             match snd (fst r) with
             | Some err => ((None, Some (NewError CodeInternal (Some err))), snd r)
             | None =>
                 match fst (fst r) with
                 | [] =>
                     ((None,
                       Some (NewError CodeNotFound
                               (Some (errorString
                                        ("Stage " ++ q (GetStage req)
                                         ++ " has no subscribers")%string)))),
                      snd r)
                 | _ :: _ =>
                     let l := loop (GetFreight req) (fst (fst r)) [] [] (snd r) in
                     ((Some {| Promotions := snd (fst l) |},
                       match fst (fst l) with
                       | [] => None
                       | _ :: _ => Some (NewError CodeInternal (Join (fst (fst l))))
                       end),
                      snd l)
                 end
             end
         end
     end).
Proof.
  intros (Hp & Hs & w1 & Hv & Hg).
  unfold PromoteSubscribers. rewrite (validate_nonempty Hp Hs).
  unfold bind at 1. unfold invoke at 1. unfold start; simpl world; simpl calls.
  rewrite Hv. simpl.
  unfold bind at 1. unfold invoke at 1. simpl. rewrite Hg. simpl.
  unfold bind at 1.
  destruct (invoke (CallGetQualifiedFreight fkey [GetStage req])
                   (getQualifiedFreightFn s fkey [GetStage req]) _)
    as [[[f |] [e |]] st3]; simpl; try reflexivity.
  unfold bind at 1.
  destruct (invoke (CallFindStageSubscribers stage) (findStageSubscribersFn s stage) st3)
    as [[subs [e |]] st4]; simpl; try reflexivity.
  destruct subs as [| x subs]; [reflexivity |].
  unfold bind at 1.
  destruct (loop (GetFreight req) (x :: subs) [] [] st4) as [[errs promos] st5].
  simpl. destruct errs; reflexivity.
Qed.

(** Past the gate and with a non-empty list of subscribers, the handler runs
    the loop and returns what the loop collected. *)
Lemma PromoteSubscribers_fanout (w0 : World) (stage : Stage) (w3 : World)
    (L : list Stage) (w4 : World) :
  reachesResolver s req w0 stage w3 ->
  findStageSubscribersFn s stage w3 = ((L, None), w4) ->
  L <> [] ->
  promoteSubscribers req (start w0)
  = (let l := loop (GetFreight req) L [] []
                {| world := w4; calls := prefixCalls req stage |} in
     ((Some {| Promotions := snd (fst l) |},
       match fst (fst l) with
       | [] => None
       | _ :: _ => Some (NewError CodeInternal (Join (fst (fst l))))
       end),
      snd l)).
Proof.
  intros (w2 & f & Hreach & Hgate) Hfind HL.
  rewrite (PromoteSubscribers_at_gate Hreach). cbv zeta.
  unfold invoke. simpl world. rewrite Hgate. simpl.
  rewrite Hfind. simpl.
  destruct L as [| x L]; [contradiction | reflexivity].
Qed.

(** The fan-out, with the passes of the loop made explicit. *)
Lemma PromoteSubscribers_attempts (w0 : World) (stage : Stage) (w3 : World)
    (L : list Stage) (w4 : World) :
  reachesResolver s req w0 stage w3 ->
  findStageSubscribersFn s stage w3 = ((L, None), w4) ->
  L <> [] ->
  exists atts w',
    promoteSubscribers req (start w0)
    = ((Some {| Promotions := protos (succeeded atts) |},
        match failures atts with
        | [] => None
        | _ :: _ => Some (connectError CodeInternal (Some (joinError (failures atts))))
        end),
       {| world := w'; calls := prefixCalls req stage ++ created atts |})
    /\ map att_subscriber atts = L
    /\ Forall (attemptOf s (GetFreight req)) atts.
Proof.
  intros Hreach Hfind HL.
  rewrite (PromoteSubscribers_fanout Hreach Hfind HL). cbv zeta.
  destruct (promoteLoop_run (GetFreight req) L [] []
              {| world := w4; calls := prefixCalls req stage |})
    as (atts & w' & Hrun & Hmap & Hall).
  exists atts, w'. rewrite Hrun. simpl.
  split; [| now split].
  destruct (failures atts); reflexivity.
Qed.

(** The fixed parts of the two NotFound messages. *)
Lemma no_subscribers_Contains (x : string) :
  GoStr.Contains ("Stage " ++ x ++ " has no subscribers") "has no subscribers".
Proof.
  do 2 apply GoStrFacts.Contains_skip. now exists " "%string, ""%string.
Qed.

Lemma not_qualified_Contains (x y : string) :
  GoStr.Contains ("no qualified Freight " ++ x ++ " found in namespace " ++ y)
                 "no qualified Freight".
Proof.
  now exists ""%string, (" " ++ x ++ " found in namespace " ++ y)%string.
Qed.

(** ** Claims about PromoteSubscribers *)

(** C1.  Once PromoteSubscribers has resolved a non-empty list [L] of
    subscribers, it hands one Promotion per element of [L] to the creator,
    whatever the other writes answered.  It returns the Promotions of all
    writes that succeeded, together with no error when no write failed and
    with one Internal error that joins every write failure otherwise.  In
    particular, for [L = [B; C]] where the write for [B] fails with [errB]
    and the write for [C] succeeds, the response holds the Promotion of [C]
    alone and the error is the Internal error joining [errB], whose message
    is the text of [errB]. *)
Theorem PromoteSubscribers_partial_failure
    (w0 : World) (stage : Stage) (w3 : World) (L : list Stage) (w4 : World) :
  reachesResolver s req w0 stage w3 ->
  findStageSubscribersFn s stage w3 = ((L, None), w4) ->
  L <> [] ->
  (exists atts st',
     promoteSubscribers req (start w0)
     = ((Some {| Promotions := protos (succeeded atts) |},
         match failures atts with
         | [] => None
         | _ :: _ => Some (connectError CodeInternal (Some (joinError (failures atts))))
         end),
        st')
     /\ map att_subscriber atts = L
     /\ Forall (attemptOf s (GetFreight req)) atts
     /\ filter isCreate (calls st') = created atts)
  /\ (forall B C idB w5 pB errB w6 idC w7 pC w8,
        L = [B; C] ->
        ulidMake w4 = (idB, w5) ->
        createPromotionFn s (buildPromotion B (GetFreight req) idB) w5
        = ((pB, Some errB), w6) ->
        ulidMake w6 = (idC, w7) ->
        createPromotionFn s (buildPromotion C (GetFreight req) idC) w7
        = ((pC, None), w8) ->
        exists e,
          fst (promoteSubscribers req (start w0))
          = (Some {| Promotions := [ToPromotionProto pC] |}, Some e)
          /\ e = connectError CodeInternal (Some (joinError [errB]))
          /\ Message e = Error errB).
Proof.
  intros Hreach Hfind HL. split.
  - destruct (PromoteSubscribers_attempts Hreach Hfind HL)
      as (atts & w' & Hrun & Hmap & Hall).
    exists atts. eexists. split; [exact Hrun |]. repeat split; try assumption.
    simpl. apply filter_isCreate_attempts.
  - intros B C idB w5 pB errB w6 idC w7 pC w8 -> HidB HB HidC HC.
    rewrite (PromoteSubscribers_fanout Hreach Hfind HL). cbv zeta.
    simpl. unfold bind, NewPromotion, bind, freshName, ret, invoke. simpl.
    rewrite HidB. simpl. rewrite HB. simpl.
    rewrite HidC. simpl. rewrite HC. simpl.
    eexists. repeat split.
Qed.

(** C9.  When PromoteSubscribers reaches the loop with the subscribers [L]:
    the creator is called exactly once per element of [L], in the order of
    [L], each time with a Promotion built from that subscriber and the
    requested freight name; the number of returned Promotions plus the number
    of joined errors is the length of [L]; and the returned Promotions are
    those of the successful passes, in the order of [L]. *)
Theorem PromoteSubscribers_fanout_accounting
    (w0 : World) (stage : Stage) (w3 : World) (L : list Stage) (w4 : World) :
  reachesResolver s req w0 stage w3 ->
  findStageSubscribersFn s stage w3 = ((L, None), w4) ->
  L <> [] ->
  exists res err st' atts,
    promoteSubscribers req (start w0) = ((Some res, err), st')
    /\ map att_subscriber atts = L
    /\ filter isCreate (calls st') = created atts
    /\ length (filter isCreate (calls st')) = length L
    /\ Forall (fun a =>
                 attemptOf s (GetFreight req) a
                 /\ Promotion_Stage (att_built a) = Stage_Name (att_subscriber a)
                 /\ Promotion_Namespace (att_built a) = Stage_Namespace (att_subscriber a)
                 /\ Promotion_Freight (att_built a) = GetFreight req) atts
    /\ Promotions res = protos (succeeded atts)
    /\ joinedErrors err = failures atts
    /\ length (Promotions res) + length (joinedErrors err) = length L.
Proof.
  intros Hreach Hfind HL.
  destruct (PromoteSubscribers_attempts Hreach Hfind HL)
    as (atts & w' & Hrun & Hmap & Hall).
  do 3 eexists. exists atts. split; [exact Hrun |].
  assert (Hj : joinedErrors
                 match failures atts with
                 | [] => None
                 | _ :: _ =>
                     Some (connectError CodeInternal (Some (joinError (failures atts))))
                 end = failures atts).
  { destruct (failures atts); reflexivity. }
  assert (Hc : filter isCreate (prefixCalls req stage ++ created atts) = created atts).
  { simpl. apply filter_isCreate_attempts. }
  split; [exact Hmap |]. split; [exact Hc |].
  split; [cbn [calls]; rewrite Hc, length_map, <- Hmap, length_map; reflexivity |].
  split.
  { apply Forall_impl with (2 := Hall). intros a Ha. split; [exact Ha |].
    destruct Ha as [[ident ->] _]. repeat split. }
  split; [reflexivity |]. split; [exact Hj |].
  rewrite Hj. cbn [Promotions]. rewrite length_map, succeeded_failures_length.
  rewrite <- Hmap, length_map. reflexivity.
Qed.

(** C5.  When the Stage exists, the Freight is qualified and the resolver
    answers with no subscriber, PromoteSubscribers fails with NotFound, the
    message is the [%q]-quoted stage name between "Stage " and
    " has no subscribers", and the creator is never called. *)
Theorem PromoteSubscribers_no_subscribers
    (w0 : World) (stage : Stage) (w3 w4 : World) :
  reachesResolver s req w0 stage w3 ->
  findStageSubscribersFn s stage w3 = (([], None), w4) ->
  exists e,
    promoteSubscribers req (start w0)
    = ((None, Some e), {| world := w4; calls := prefixCalls req stage |})
    /\ Code_of e = Some CodeNotFound
    /\ Message e = ("Stage " ++ q (GetStage req) ++ " has no subscribers")%string
    /\ GoStr.Contains (Message e) "has no subscribers"
    /\ filter isCreate (prefixCalls req stage) = [].
Proof.
  intros (w2 & f & Hreach & Hgate) Hfind.
  rewrite (PromoteSubscribers_at_gate Hreach). cbv zeta.
  unfold invoke. simpl world. rewrite Hgate. simpl. rewrite Hfind. simpl.
  eexists. split; [reflexivity |].
  split; [reflexivity |]. split; [reflexivity |]. split; [| reflexivity].
  exact (no_subscribers_Contains (q (GetStage req))).
Qed.

(** C10.  PromoteSubscribers asks the gate before it resolves subscribers:
    when the gate answers absent, the handler fails with NotFound and the
    "no qualified Freight" message, and the calls it made are the project
    validation, the Stage read and the gate, so neither the resolver nor the
    listing it rests on is called, whatever they would have answered. *)
Theorem PromoteSubscribers_gate_before_resolver
    (w0 : World) (stage : Stage) (w2 w3 : World) :
  reachesGate s req w0 stage w2 ->
  getQualifiedFreightFn s fkey [GetStage req] w2 = ((None, None), w3) ->
  exists e st',
    promoteSubscribers req (start w0) = ((None, Some e), st')
    /\ Code_of e = Some CodeNotFound
    /\ Message e
       = ("no qualified Freight " ++ q (GetFreight req)
          ++ " found in namespace " ++ q (GetProject req))%string
    /\ GoStr.Contains (Message e) "no qualified Freight"
    /\ calls st'
       = [ CallValidateProject (GetProject req);
           CallGetStage skey;
           CallGetQualifiedFreight fkey [GetStage req] ]
    /\ filter isFindSubscribers (calls st') = [].
Proof.
  intros Hreach Hgate.
  rewrite (PromoteSubscribers_at_gate Hreach). cbv zeta.
  unfold invoke. simpl world. rewrite Hgate. simpl.
  do 2 eexists. split; [reflexivity |].
  split; [reflexivity |]. split; [reflexivity |].
  split; [| split; reflexivity].
  exact (not_qualified_Contains (q (GetFreight req)) (q (GetProject req))).
Qed.

Lemma not_qualified_names (x y : string) :
  GoStr.Contains ("no qualified Freight " ++ x ++ " found in namespace " ++ y) x
  /\ GoStr.Contains ("no qualified Freight " ++ x ++ " found in namespace " ++ y) y.
Proof.
  split.
  - apply GoStrFacts.Contains_skip, GoStrFacts.Contains_here.
  - do 3 apply GoStrFacts.Contains_skip. apply GoStrFacts.Contains_refl.
Qed.

(** C3.  PromoteSubscribers calls the gate once, with the candidate list
    that holds the requested stage name and nothing else.  When the gate
    answers absent the handler fails with NotFound; the message is
    "no qualified Freight F found in namespace P" with F and P the freight
    name and the project as [%q] prints them (the name itself between double
    quotes when it needs no escaping); and the creator is never called. *)
Theorem PromoteSubscribers_gate_candidates
    (w0 : World) (stage : Stage) (w2 : World) :
  reachesGate s req w0 stage w2 ->
  filter isGate (calls (snd (promoteSubscribers req (start w0))))
  = [CallGetQualifiedFreight fkey [GetStage req]]
  /\ forall w3,
       getQualifiedFreightFn s fkey [GetStage req] w2 = ((None, None), w3) ->
       exists e st',
         promoteSubscribers req (start w0) = ((None, Some e), st')
         /\ Code_of e = Some CodeNotFound
         /\ Message e
            = ("no qualified Freight " ++ q (GetFreight req)
               ++ " found in namespace " ++ q (GetProject req))%string
         /\ GoStr.Contains (Message e) (q (GetFreight req))
         /\ GoStr.Contains (Message e) (q (GetProject req))
         /\ (GoStr.plain (GetFreight req) = true ->
             GoStr.Contains (Message e) (GetFreight req))
         /\ (GoStr.plain (GetProject req) = true ->
             GoStr.Contains (Message e) (GetProject req))
         /\ filter isCreate (calls st') = [].
Proof.
  intros Hreach. rewrite (PromoteSubscribers_at_gate Hreach). cbv zeta. split.
  - unfold invoke. simpl world. simpl calls.
    destruct (getQualifiedFreightFn s fkey [GetStage req] w2)
      as [[[f |] [e |]] w3]; simpl; try reflexivity.
    destruct (findStageSubscribersFn s stage w3) as [[subs [e |]] w4];
      simpl; try reflexivity.
    destruct subs as [| x subs]; [reflexivity |].
    match goal with
    | |- context [loop ?f ?l ?a ?b ?st] =>
        destruct (promoteLoop_run f l a b st) as (atts & w' & Hrun & _ & _)
    end.
    rewrite Hrun. cbn [snd calls]. rewrite filter_app, filter_isGate_attempts.
    reflexivity.
  - intros w3 Hgate. unfold invoke. simpl world. rewrite Hgate. simpl.
    destruct (not_qualified_names (q (GetFreight req)) (q (GetProject req)))
      as [Hf Hp].
    do 2 eexists. split; [reflexivity |].
    split; [reflexivity |]. split; [reflexivity |].
    split; [exact Hf |]. split; [exact Hp |].
    split; [| split; [| reflexivity]]; intros Hplain.
    + eapply GoStrFacts.Contains_trans; [exact Hf |].
      now apply GoStrFacts.quote_plain_Contains.
    + eapply GoStrFacts.Contains_trans; [exact Hp |].
      now apply GoStrFacts.quote_plain_Contains.
Qed.

(** ** Input validation *)

(** C2, as amended.  When the project or the stage name of the request is
    empty, PromoteSubscribers and PromoteStage fail with InvalidArgument and
    leave the state as it was: no function field of the server is called.
    (An empty freight name is not looked at by the validation.) *)
Theorem empty_project_or_stage_rejected (w : World) :
  (forall r : PromoteSubscribersRequest,
     GetProject r = EmptyString \/ GetStage r = EmptyString ->
     exists e,
       promoteSubscribers r (start w) = ((None, Some e), start w)
       /\ Code_of e = Some CodeInvalidArgument
       /\ calls (snd (promoteSubscribers r (start w))) = [])
  /\ (forall r : PromoteStageRequest,
        stageReq_GetProject r = EmptyString \/ stageReq_GetName r = EmptyString ->
        exists e,
          promoteStage r (start w) = ((None, Some e), start w)
          /\ Code_of e = Some CodeInvalidArgument
          /\ calls (snd (promoteStage r (start w))) = []).
Proof.
  split; intros r H; destruct (validate_empty H) as [e [He Hc]]; exists e.
  - unfold PromoteSubscribers. rewrite He. now repeat split.
  - unfold PromoteStage. rewrite He. now repeat split.
Qed.

(** ** PromoteStage *)

Lemma GetQualifiedFreight_found (freights : list Freight) (key : NamespacedName)
    (stages : list string) (f : Freight) :
  In f freights ->
  Freight_Namespace f = nn_Namespace key ->
  Freight_Name f = nn_Name key ->
  qualifiedFor f stages = true ->
  exists f', GetQualifiedFreight freights key stages = Some f'.
Proof.
  intros Hin Hns Hname Hq. unfold GetQualifiedFreight.
  match goal with |- exists _, find ?p _ = _ => destruct (find p freights) eqn:Hfind end.
  - now eexists.
  - apply find_none with (x := f) in Hfind; [| exact Hin].
    rewrite Hns, Hname, !String.eqb_refl, Hq in Hfind. discriminate.
Qed.

Lemma qualifiedFor_last (f : Freight) (name U1 U2 : string) :
  Freight_Qualifications f = [U2] -> qualifiedFor f [name; U1; U2] = true.
Proof.
  intros H. unfold qualifiedFor. rewrite H. simpl.
  rewrite String.eqb_refl. simpl. now rewrite !orb_true_r.
Qed.

#[local] Arguments upstreamNames : simpl never.

(** Past the Stage reader, PromoteStage asks the gate, builds the Promotion
    and writes it. *)
Lemma PromoteStage_at_gate
    (r : PromoteStageRequest) (w0 w1 : World) (stage : Stage) (w2 : World) :
  stageReq_GetProject r <> EmptyString ->
  stageReq_GetName r <> EmptyString ->
  validateProjectFn s (stageReq_GetProject r) w0 = (None, w1) ->
  getStageFn s {| nn_Namespace := stageReq_GetProject r;
                  nn_Name := stageReq_GetName r |} w1
  = ((Some stage, None), w2) ->
  promoteStage r (start w0)
  = (let key := {| nn_Namespace := stageReq_GetProject r;
                   nn_Name := stageReq_GetFreight r |} in
     let stages := stageReq_GetName r :: upstreamNames stage in
     let st2 := {| world := w2;
                   calls := [CallValidateProject (stageReq_GetProject r);
                             CallGetStage {| nn_Namespace := stageReq_GetProject r;
                                             nn_Name := stageReq_GetName r |}] |} in
     let g := invoke (CallGetQualifiedFreight key stages)
                     (getQualifiedFreightFn s key stages) st2 in
     match snd (fst g) with
     | Some err => ((None, Some (NewError CodeInternal (Some err))), snd g)
     | None =>
         match fst (fst g) with
         | None =>
             ((None,
               Some (NewError CodeNotFound
                       (Some (errorString
                                ("no qualified Freight " ++ q (stageReq_GetFreight r)
                                 ++ " found in namespace "
                                 ++ q (stageReq_GetProject r))%string)))),
              snd g)
         | Some _ =>
             let n := NewPromotion ulidMake stage (stageReq_GetFreight r) (snd g) in
             let c := invoke (CallCreatePromotion (fst n))
                             (createPromotionFn s (fst n)) (snd n) in
             match snd (fst c) with
             | Some err => ((None, Some (NewError CodeInternal (Some err))), snd c)
             | None =>
                 ((Some {| GetPromotion := ToPromotionProto (fst (fst c)) |}, None),
                  snd c)
             end
         end
     end).
Proof.
  intros Hp Hn Hv Hg.
  unfold PromoteStage. rewrite (validate_nonempty Hp Hn).
  unfold bind at 1. unfold invoke at 1. unfold start; simpl world; simpl calls.
  rewrite Hv. simpl.
  unfold bind at 1. unfold invoke at 1. simpl. rewrite Hg. simpl.
  unfold bind at 1.
  destruct (invoke _ _ _) as [[[f |] [e |]] st3]; simpl; try reflexivity.
  unfold bind at 1.
  destruct (NewPromotion ulidMake stage (stageReq_GetFreight r) st3) as [newPromo st4].
  simpl. unfold bind at 1.
  destruct (invoke _ _ st4) as [[stored [e |]] st5]; reflexivity.
Qed.

(** C6.  PromoteStage calls the gate once, with the Stage's own name
    followed by the names of the upstream Stages it subscribes to.  So when
    the Stage subscribes to [U1] and [U2], the gate is the qualification gate
    over a set of Freight in which the requested Freight is qualified for
    [U2] only, and the write succeeds, PromoteStage returns the Promotion and
    no error. *)
Theorem PromoteStage_candidates
    (r : PromoteStageRequest) (w0 w1 : World) (stage : Stage) (w2 : World) :
  stageReq_GetProject r <> EmptyString ->
  stageReq_GetName r <> EmptyString ->
  validateProjectFn s (stageReq_GetProject r) w0 = (None, w1) ->
  getStageFn s {| nn_Namespace := stageReq_GetProject r;
                  nn_Name := stageReq_GetName r |} w1
  = ((Some stage, None), w2) ->
  let key := {| nn_Namespace := stageReq_GetProject r;
                nn_Name := stageReq_GetFreight r |} in
  filter isGate (calls (snd (promoteStage r (start w0))))
  = [CallGetQualifiedFreight key (stageReq_GetName r :: upstreamNames stage)]
  /\ forall U1 U2 freights f w3 ident w4 stored w5,
       upstreamNames stage = [U1; U2] ->
       getQualifiedFreightFn s key [stageReq_GetName r; U1; U2] w2
       = ((GetQualifiedFreight freights key [stageReq_GetName r; U1; U2], None), w3) ->
       In f freights ->
       Freight_Namespace f = stageReq_GetProject r ->
       Freight_Name f = stageReq_GetFreight r ->
       Freight_Qualifications f = [U2] ->
       ulidMake w3 = (ident, w4) ->
       createPromotionFn s (buildPromotion stage (stageReq_GetFreight r) ident) w4
       = ((stored, None), w5) ->
       fst (promoteStage r (start w0))
       = (Some {| GetPromotion := ToPromotionProto stored |}, None).
Proof.
  intros Hp Hn Hv Hg key.
  rewrite (@PromoteStage_at_gate r w0 w1 stage w2 Hp Hn Hv Hg). cbv zeta. fold key.
  unfold invoke, NewPromotion, bind, freshName, ret. cbn [world calls]. split.
  - destruct (getQualifiedFreightFn s key (stageReq_GetName r :: upstreamNames stage) w2)
      as [[[f |] [e |]] w3]; cbn [fst snd world calls]; try reflexivity.
    destruct (ulidMake w3) as [ident w4]. cbn [fst snd world calls].
    destruct (createPromotionFn s (buildPromotion stage (stageReq_GetFreight r) ident) w4)
      as [[stored [e |]] w5]; reflexivity.
  - intros U1 U2 freights f w3 ident w4 stored w5 Hup Hgate Hin Hns Hname Hq Hid Hc.
    rewrite Hup, Hgate.
    destruct (@GetQualifiedFreight_found freights key [stageReq_GetName r; U1; U2] f
                Hin Hns Hname (@qualifiedFor_last f (stageReq_GetName r) U1 U2 Hq))
      as [f' ->].
    cbn [fst snd world calls]. rewrite Hid. cbn [fst snd world calls].
    rewrite Hc. reflexivity.
Qed.

End Handlers.
(** ** findStageSubscribers *)

Lemma scanUpstreams_acc (upstreams : list StageSubscription) (x : Stage)
    (name : string) (acc : list Stage) :
  scanUpstreams upstreams x name acc = acc ++ scanUpstreams upstreams x name [].
Proof.
  revert acc. induction upstreams as [| u rest IH]; intros acc; simpl.
  - now rewrite app_nil_r.
  - destruct (String.eqb (StageSubscription_Name u) name).
    + rewrite (IH (acc ++ [x])), (IH [x]). now rewrite <- app_assoc.
    + apply IH.
Qed.

Lemma In_scanUpstreams (upstreams : list StageSubscription) (x : Stage)
    (name : string) (y : Stage) :
  In y (scanUpstreams upstreams x name [])
  <-> y = x /\ In name (map StageSubscription_Name upstreams).
Proof.
  induction upstreams as [| u rest IH]; simpl.
  - tauto.
  - destruct (String.eqb_spec (StageSubscription_Name u) name) as [E | E].
    + rewrite scanUpstreams_acc. simpl. rewrite IH. split.
      * intros [<- | [-> _]]; split; auto.
      * intros [-> _]. now left.
    + rewrite IH. split; [intros [-> H]; auto | intros [-> [H | H]]; [contradiction | auto]].
Qed.

Lemma In_contribution (name : string) (x y : Stage) :
  In y (contribution name x) <-> y = x /\ subscribesTo x name.
Proof.
  unfold contribution, subscribesTo, upstreamNames.
  destruct (Stage_Spec x) as [spec |]; [| simpl; tauto].
  destruct (StageSpec_Subscriptions spec) as [subs |]; [| simpl; tauto].
  apply In_scanUpstreams.
Qed.

(** On a listing whose Stages all carry a [Spec] the scan returns, and its
    result is the accumulator followed by the contributions of the listed
    Stages, in the order of the listing. *)
Lemma scanStages_flat_map (items : list Stage) (stage : Stage) :
  Forall hasSpec items ->
  forall acc,
    scanStages items stage acc
    = Returns (acc ++ flat_map (contribution (Stage_Name stage)) items).
Proof.
  induction 1 as [| x items Hx Hall IH]; intros acc; simpl.
  - now rewrite app_nil_r.
  - unfold contribution at 1. unfold hasSpec in Hx.
    destruct (Stage_Spec x) as [spec |]; [| contradiction].
    destruct (StageSpec_Subscriptions spec) as [subs |].
    + rewrite IH, scanUpstreams_acc. now rewrite <- app_assoc.
    + apply IH.
Qed.

Lemma In_scan_result (items : list Stage) (name : string) (x : Stage) :
  In x (flat_map (contribution name) items) <-> In x items /\ subscribesTo x name.
Proof.
  rewrite in_flat_map. split.
  - intros [y [Hy Hin]]. apply In_contribution in Hin as [-> Hs]. auto.
  - intros [Hin Hs]. exists x. split; [exact Hin |]. now apply In_contribution.
Qed.

Section Resolver.

Variable World : Type.
Variable s : server World.

Lemma findStageSubscribers_run (stage : Stage) (w : World) (items : list Stage)
    (w1 : World) :
  client_List s (Stage_Namespace stage) w = ((items, None), w1) ->
  Forall hasSpec items ->
  findStageSubscribers s stage (start w)
  = (Returns (flat_map (contribution (Stage_Name stage)) items, None),
     {| world := w1; calls := [CallClientList (Stage_Namespace stage)] |}).
Proof.
  intros Hlist Hall. unfold findStageSubscribers, bind, invoke, start, ret. simpl.
  rewrite Hlist. simpl. now rewrite (scanStages_flat_map stage Hall []).
Qed.

(** C4.  On a listing [items] of the namespace (every listed Stage with its
    [Spec]), findStageSubscribers returns a list [subs] such that a Stage [X]
    is in [subs] if and only if [X] is listed and one of its upstream entries
    bears the name of the given Stage.  A Stage without subscriptions or with
    an empty list of upstream entries is not in [subs].  A listing of the
    same Stages in another order gives the same Stages, as a permutation. *)
Theorem findStageSubscribers_iff (stage : Stage) (w : World)
    (items : list Stage) (w1 : World) :
  client_List s (Stage_Namespace stage) w = ((items, None), w1) ->
  Forall hasSpec items ->
  exists subs,
    fst (findStageSubscribers s stage (start w)) = Returns (subs, None)
    /\ scanStages items stage [] = Returns subs
    /\ (forall X, In X subs <-> In X items /\ subscribesTo X (Stage_Name stage))
    /\ (forall X, upstreamNames X = [] -> ~ In X subs)
    /\ (forall items',
          Permutation items items' ->
          exists subs',
            scanStages items' stage [] = Returns subs'
            /\ Permutation subs subs'
            /\ forall X, In X subs' <-> In X subs).
Proof.
  intros Hlist Hall.
  exists (flat_map (contribution (Stage_Name stage)) items).
  rewrite (@findStageSubscribers_run stage w items w1 Hlist Hall).
  split; [reflexivity |].
  split; [apply (scanStages_flat_map stage Hall []) |].
  split; [intros X; apply In_scan_result |].
  split.
  - intros X Hnone Hin. apply In_scan_result in Hin as [_ Hs].
    unfold subscribesTo in Hs. now rewrite Hnone in Hs.
  - intros items' Hperm.
    exists (flat_map (contribution (Stage_Name stage)) items').
    assert (Hall' : Forall hasSpec items').
    { apply Forall_forall. intros x Hx. rewrite Forall_forall in Hall.
      apply Hall. now apply Permutation_in with (1 := Permutation_sym Hperm). }
    split; [apply (scanStages_flat_map stage Hall' []) |].
    assert (Hp : Permutation (flat_map (contribution (Stage_Name stage)) items)
                             (flat_map (contribution (Stage_Name stage)) items')).
    { now apply Permutation_flat_map. }
    split; [exact Hp |].
    intros X. split; intros HX.
    + now apply Permutation_in with (1 := Permutation_sym Hp).
    + now apply Permutation_in with (1 := Hp).
Qed.

(** C8.  A listed Stage [S] with an upstream entry that bears its own name
    is returned by findStageSubscribers applied to [S]: the scan does not
    filter out a Stage that subscribes to itself. *)
Theorem findStageSubscribers_self (S : Stage) (w : World)
    (items : list Stage) (w1 : World) :
  client_List s (Stage_Namespace S) w = ((items, None), w1) ->
  Forall hasSpec items ->
  In S items ->
  subscribesTo S (Stage_Name S) ->
  exists subs,
    fst (findStageSubscribers s S (start w)) = Returns (subs, None)
    /\ In S subs.
Proof.
  intros Hlist Hall Hin Hself.
  exists (flat_map (contribution (Stage_Name S)) items).
  rewrite (@findStageSubscribers_run S w items w1 Hlist Hall).
  split; [reflexivity |]. apply In_scan_result. now split.
Qed.

End Resolver.

(** * Runs of the stub servers *)

Ltac reach :=
  repeat first
    [ reflexivity | discriminate
    | match goal with
      | |- reachesResolver _ _ _ _ _ => exists 0, Fake.fakeFreight; split
      | |- reachesGate _ _ _ _ _ => split; [| split; [| exists 0; split]]
      end ].

(** With subscribers B and C and a failing write for B, the response holds
    the Promotion of C and the error joins the failure of B. *)
Lemma PromoteSubscribers_partial_failure_witness :
  Fake.stageB :: Fake.stageC :: nil <> nil
  /\ fst (Fake.runSubscribers Fake.cascade Fake.fromA)
     = (Some {| Promotions := [buildPromotion Fake.stageC "fake-freight" "ulid1"] |},
        Some (connectError CodeInternal (Some (joinError [Fake.wentWrong])))).
Proof.
  assert (HL : Fake.stageB :: Fake.stageC :: nil <> nil) by discriminate.
  split; [exact HL |].
  destruct (@PromoteSubscribers_partial_failure nat Fake.quoteNonASCII Fake.ulidMake
              Promotion Fake.ToPromotionProto Fake.cascade Fake.fromA
              0 Fake.stageA 0 [Fake.stageB; Fake.stageC] 0
              ltac:(reach) eq_refl HL) as [_ H].
  destruct (H Fake.stageB Fake.stageC "ulid0"%string 1
              (buildPromotion Fake.stageB "fake-freight" "ulid0") Fake.wentWrong 1
              "ulid1"%string 2
              (buildPromotion Fake.stageC "fake-freight" "ulid1") 2
              eq_refl eq_refl eq_refl eq_refl eq_refl) as [e [Hrun [He _]]].
  rewrite He in Hrun. exact Hrun.
Defined.

Lemma PromoteSubscribers_fanout_accounting_witness :
  exists res err st',
    Fake.runSubscribers Fake.cascade Fake.fromA = ((Some res, err), st')
    /\ length (filter isCreate (calls st')) = 2
    /\ length (Promotions res) + length (joinedErrors err) = 2.
Proof.
  destruct (@PromoteSubscribers_fanout_accounting nat Fake.quoteNonASCII Fake.ulidMake
              Promotion Fake.ToPromotionProto Fake.cascade Fake.fromA
              0 Fake.stageA 0 [Fake.stageB; Fake.stageC] 0
              ltac:(reach) eq_refl ltac:(discriminate))
    as (res & err & st' & atts & Hrun & _ & _ & Hcalls & _ & _ & _ & Hlen).
  exists res, err, st'. repeat split; assumption.
Defined.

Lemma PromoteSubscribers_no_subscribers_witness :
  exists e,
    fst (Fake.runSubscribers
           (Fake.fakeServer (Some Fake.stageA) (Some Fake.fakeFreight) [] [])
           Fake.fromA)
    = (None, Some e)
    /\ Code_of e = Some CodeNotFound
    /\ GoStr.containsb (Message e) "has no subscribers" = true.
Proof.
  destruct (@PromoteSubscribers_no_subscribers nat Fake.quoteNonASCII Fake.ulidMake
              Promotion Fake.ToPromotionProto
              (Fake.fakeServer (Some Fake.stageA) (Some Fake.fakeFreight) [] [])
              Fake.fromA 0 Fake.stageA 0 0 ltac:(reach) eq_refl)
    as (e & Hrun & Hcode & _ & Hmsg & _).
  exists e. split; [| split; [assumption | now apply GoStrFacts.containsb_iff]].
  unfold Fake.runSubscribers. rewrite Hrun. reflexivity.
Defined.

Lemma PromoteSubscribers_gate_before_resolver_witness :
  exists e st',
    Fake.runSubscribers (Fake.fakeServer (Some Fake.stageA) None [] []) Fake.fromA
    = ((None, Some e), st')
    /\ GoStr.Contains (Message e) "no qualified Freight"
    /\ filter isFindSubscribers (calls st') = [].
Proof.
  destruct (@PromoteSubscribers_gate_before_resolver nat Fake.quoteNonASCII Fake.ulidMake
              Promotion Fake.ToPromotionProto
              (Fake.fakeServer (Some Fake.stageA) None [] [])
              Fake.fromA 0 Fake.stageA 0 0 ltac:(reach) eq_refl)
    as (e & st' & Hrun & _ & _ & Hmsg & _ & Hnone).
  exists e, st'. repeat split; assumption.
Defined.

Lemma PromoteSubscribers_gate_candidates_witness :
  filter isGate
    (calls (snd (Fake.runSubscribers
                   (Fake.fakeServer (Some Fake.stageA) None [] []) Fake.fromA)))
  = [CallGetQualifiedFreight
       {| nn_Namespace := "fake-project"; nn_Name := "fake-freight" |} ["A"%string]]
  /\ exists e,
       fst (Fake.runSubscribers
              (Fake.fakeServer (Some Fake.stageA) None [] []) Fake.fromA)
       = (None, Some e)
       /\ Code_of e = Some CodeNotFound
       /\ GoStr.Contains (Message e) "fake-freight"
       /\ GoStr.Contains (Message e) "fake-project".
Proof.
  destruct (@PromoteSubscribers_gate_candidates nat Fake.quoteNonASCII Fake.ulidMake
              Promotion Fake.ToPromotionProto
              (Fake.fakeServer (Some Fake.stageA) None [] [])
              Fake.fromA 0 Fake.stageA 0 ltac:(reach)) as [Hcalls Habsent].
  split; [exact Hcalls |].
  destruct (Habsent 0 eq_refl) as (e & st' & Hrun & Hcode & _ & _ & _ & Hf & Hp & _).
  exists e. unfold Fake.runSubscribers. rewrite Hrun.
  repeat split; [exact Hcode | exact (Hf eq_refl) | exact (Hp eq_refl)].
Defined.

Lemma empty_project_or_stage_rejected_witness :
  exists e,
    Fake.runSubscribers Fake.cascade (Fake.request "" "A" "fake-freight")
    = ((None, Some e), start 0)
    /\ Code_of e = Some CodeInvalidArgument.
Proof.
  destruct (@empty_project_or_stage_rejected nat Fake.quoteNonASCII Fake.ulidMake
              Promotion Fake.ToPromotionProto Fake.cascade 0) as [H _].
  destruct (H (Fake.request "" "A" "fake-freight") (or_introl eq_refl))
    as (e & Hrun & Hcode & _).
  exists e. split; assumption.
Defined.

(** C2, as stated, fails for an empty freight name.  With a project and a
    stage name, the request with the empty freight name passes validation;
    the handler calls the project validator, the Stage reader and the gate,
    and the gate (here the qualification gate over one Freight, none of which
    has the empty name) answers absent: the error is NotFound, not
    InvalidArgument, and three function fields have been called. *)
Lemma empty_freight_not_rejected :
  GetFreight Fake.noFreight = EmptyString
  /\ (exists e,
        fst (Fake.runSubscribers Fake.gated Fake.noFreight) = (None, Some e)
        /\ Code_of e = Some CodeNotFound
        /\ Message e
           = ("no qualified Freight " ++ GoStr.quote Fake.quoteNonASCII ""
              ++ " found in namespace "
              ++ GoStr.quote Fake.quoteNonASCII "fake-project")%string)
  /\ calls (snd (Fake.runSubscribers Fake.gated Fake.noFreight))
     = [ CallValidateProject "fake-project";
         CallGetStage {| nn_Namespace := "fake-project"; nn_Name := "A" |};
         CallGetQualifiedFreight
           {| nn_Namespace := "fake-project"; nn_Name := "" |} ["A"%string] ]
  /\ ~ (exists e,
          snd (fst (Fake.runSubscribers Fake.gated Fake.noFreight)) = Some e
          /\ Code_of e = Some CodeInvalidArgument
          /\ calls (snd (Fake.runSubscribers Fake.gated Fake.noFreight)) = []).
Proof.
  split; [reflexivity |]. split; [eexists; repeat split |].
  split; [reflexivity |].
  intros (e & _ & _ & H). discriminate H.
Qed.

Lemma PromoteStage_candidates_witness :
  filter isGate
    (calls (snd (Fake.runStage (Fake.gatedServer Fake.stageD [Fake.freightU2])
                   (Fake.stageRequest "fake-project" "D" "fake-freight"))))
  = [CallGetQualifiedFreight
       {| nn_Namespace := "fake-project"; nn_Name := "fake-freight" |}
       ["D"; "U1"; "U2"]%string]
  /\ fst (Fake.runStage (Fake.gatedServer Fake.stageD [Fake.freightU2])
            (Fake.stageRequest "fake-project" "D" "fake-freight"))
     = (Some {| GetPromotion := buildPromotion Fake.stageD "fake-freight" "ulid0" |},
        None).
Proof.
  destruct (@PromoteStage_candidates nat Fake.quoteNonASCII Fake.ulidMake
              Promotion Fake.ToPromotionProto
              (Fake.gatedServer Fake.stageD [Fake.freightU2])
              (Fake.stageRequest "fake-project" "D" "fake-freight")
              0 0 Fake.stageD 0
              ltac:(discriminate) ltac:(discriminate) eq_refl eq_refl)
    as [Hcalls Hrun].
  split; [exact Hcalls |].
  exact (Hrun "U1"%string "U2"%string [Fake.freightU2] Fake.freightU2 0
           "ulid0"%string 1 (buildPromotion Fake.stageD "fake-freight" "ulid0") 1
           eq_refl eq_refl (or_introl eq_refl) eq_refl eq_refl eq_refl eq_refl eq_refl).
Defined.

Lemma findStageSubscribers_iff_witness :
  exists subs,
    fst (findStageSubscribers Fake.cascade Fake.stageA (start 0)) = Returns (subs, None)
    /\ (In Fake.stageB subs
        <-> In Fake.stageB [Fake.stageA; Fake.stageB; Fake.stageC]
            /\ subscribesTo Fake.stageB "A")
    /\ ~ In Fake.stageA subs.
Proof.
  destruct (@findStageSubscribers_iff nat Fake.cascade Fake.stageA 0
              [Fake.stageA; Fake.stageB; Fake.stageC] 0 eq_refl)
    as (subs & Hrun & _ & Hiff & Hnone & _).
  - repeat constructor; discriminate.
  - exists subs. split; [exact Hrun |]. split; [apply Hiff |].
    apply Hnone. reflexivity.
Defined.

Lemma findStageSubscribers_self_witness :
  exists subs,
    fst (findStageSubscribers
           (Fake.fakeServer (Some Fake.stageS) None [Fake.stageS] [])
           Fake.stageS (start 0))
    = Returns (subs, None)
    /\ In Fake.stageS subs.
Proof.
  apply (@findStageSubscribers_self nat
           (Fake.fakeServer (Some Fake.stageS) None [Fake.stageS] [])
           Fake.stageS 0 [Fake.stageA; Fake.stageS] 0 eq_refl).
  - repeat constructor; discriminate.
  - right; left; reflexivity.
  - left; reflexivity.
Defined.

(** C7.  The scan appends a listed Stage once for every upstream entry that
    bears the name, so a Stage listed once is returned twice when two of its
    upstream entries name the given Stage: the listing [A; X], where X
    subscribes to A twice, has no duplicates, and the result [X; X] has. *)
Theorem findStageSubscribers_duplicate_upstreams :
  NoDup [Fake.stageA; Fake.stageX]
  /\ upstreamNames Fake.stageX = ["A"; "A"]%string
  /\ findStageSubscribers
       (Fake.fakeServer (Some Fake.stageA) (Some Fake.fakeFreight) [Fake.stageX] [])
       Fake.stageA (start 0)
     = (Returns ([Fake.stageX; Fake.stageX], None),
        {| world := 0; calls := [CallClientList "fake-project"] |})
  /\ ~ NoDup [Fake.stageX; Fake.stageX].
Proof.
  split; [| split; [reflexivity | split; [reflexivity |]]].
  - repeat constructor; simpl; intuition discriminate.
  - intros H. inversion H as [| x l Hin _]. apply Hin. now left.
Qed.

(** * Further properties of the handlers *)

Section HandlerPaths.

Variable World : Type.
Variable quoteNonASCII : string -> string.
Variable ulidMake : World -> string * World.
Variable PromotionProto : Type.
Variable ToPromotionProto : Promotion -> PromotionProto.
Variable s : server World.
Variable req : PromoteSubscribersRequest.

Abbreviation q := (GoStr.quote quoteNonASCII).
Abbreviation run := (PromoteSubscribers quoteNonASCII ulidMake ToPromotionProto s req).
Abbreviation created := (map (fun a => CallCreatePromotion (att_built a))).
Abbreviation protos := (map (fun a => ToPromotionProto (att_stored a))).
Abbreviation fkey :=
  {| nn_Namespace := GetProject req; nn_Name := GetFreight req |}.
Abbreviation skey :=
  {| nn_Namespace := GetProject req; nn_Name := GetStage req |}.

Lemma validate_None_inv (project stage : string) :
  validateProjectAndStageNonEmpty project stage = None ->
  project <> EmptyString /\ stage <> EmptyString.
Proof.
  unfold validateProjectAndStageNonEmpty.
  destruct project; [discriminate |]. destruct stage; [discriminate |].
  intros _. split; discriminate.
Qed.

Lemma PromoteSubscribers_project_fails (w0 w1 : World) (err : error) :
  GetProject req <> EmptyString ->
  GetStage req <> EmptyString ->
  validateProjectFn s (GetProject req) w0 = (Some err, w1) ->
  run (start w0)
  = ((None, Some err),
     {| world := w1; calls := [CallValidateProject (GetProject req)] |}).
Proof.
  intros Hp Hs Hv. unfold PromoteSubscribers. rewrite (validate_nonempty Hp Hs).
  unfold bind, invoke, start, ret. simpl. rewrite Hv. reflexivity.
Qed.

Lemma PromoteSubscribers_stage_error (w0 w1 w2 : World) (o : option Stage)
    (err : error) :
  GetProject req <> EmptyString ->
  GetStage req <> EmptyString ->
  validateProjectFn s (GetProject req) w0 = (None, w1) ->
  getStageFn s skey w1 = ((o, Some err), w2) ->
  run (start w0)
  = ((None, Some (connectError CodeInternal (Some err))),
     {| world := w2;
        calls := [CallValidateProject (GetProject req); CallGetStage skey] |}).
Proof.
  intros Hp Hs Hv Hg. unfold PromoteSubscribers. rewrite (validate_nonempty Hp Hs).
  unfold bind, invoke, start, ret. simpl. rewrite Hv. simpl. rewrite Hg. reflexivity.
Qed.

Lemma PromoteSubscribers_stage_absent (w0 w1 w2 : World) :
  GetProject req <> EmptyString ->
  GetStage req <> EmptyString ->
  validateProjectFn s (GetProject req) w0 = (None, w1) ->
  getStageFn s skey w1 = ((None, None), w2) ->
  run (start w0)
  = ((None,
      Some (connectError CodeNotFound
              (Some (errorString
                       ("Stage " ++ q (GetStage req) ++ " not found in namespace "
                        ++ q (GetProject req))%string)))),
     {| world := w2;
        calls := [CallValidateProject (GetProject req); CallGetStage skey] |}).
Proof.
  intros Hp Hs Hv Hg. unfold PromoteSubscribers. rewrite (validate_nonempty Hp Hs).
  unfold bind, invoke, start, ret. simpl. rewrite Hv. simpl. rewrite Hg. reflexivity.
Qed.

Lemma PromoteSubscribers_gate_error (w0 : World) (stage : Stage) (w2 w3 : World)
    (o : option Freight) (err : error) :
  reachesGate s req w0 stage w2 ->
  getQualifiedFreightFn s fkey [GetStage req] w2 = ((o, Some err), w3) ->
  run (start w0)
  = ((None, Some (connectError CodeInternal (Some err))),
     {| world := w3;
        calls := [CallValidateProject (GetProject req); CallGetStage skey;
                  CallGetQualifiedFreight fkey [GetStage req]] |}).
Proof.
  intros Hreach Hgate.
  rewrite (PromoteSubscribers_at_gate quoteNonASCII ulidMake ToPromotionProto Hreach).
  cbv zeta. unfold invoke. simpl world. rewrite Hgate. reflexivity.
Qed.

Lemma PromoteSubscribers_gate_absent (w0 : World) (stage : Stage) (w2 w3 : World) :
  reachesGate s req w0 stage w2 ->
  getQualifiedFreightFn s fkey [GetStage req] w2 = ((None, None), w3) ->
  run (start w0)
  = ((None,
      Some (connectError CodeNotFound
              (Some (errorString
                       ("no qualified Freight " ++ q (GetFreight req)
                        ++ " found in namespace " ++ q (GetProject req))%string)))),
     {| world := w3;
        calls := [CallValidateProject (GetProject req); CallGetStage skey;
                  CallGetQualifiedFreight fkey [GetStage req]] |}).
Proof.
  intros Hreach Hgate.
  rewrite (PromoteSubscribers_at_gate quoteNonASCII ulidMake ToPromotionProto Hreach).
  cbv zeta. unfold invoke. simpl world. rewrite Hgate. reflexivity.
Qed.

Lemma PromoteSubscribers_resolver_error (w0 : World) (stage : Stage) (w3 w4 : World)
    (L : list Stage) (err : error) :
  reachesResolver s req w0 stage w3 ->
  findStageSubscribersFn s stage w3 = ((L, Some err), w4) ->
  run (start w0)
  = ((None, Some (connectError CodeInternal (Some err))),
     {| world := w4; calls := prefixCalls req stage |}).
Proof.
  intros (w2 & f & Hreach & Hgate) Hfind.
  rewrite (PromoteSubscribers_at_gate quoteNonASCII ulidMake ToPromotionProto Hreach).
  cbv zeta. unfold invoke. simpl world. rewrite Hgate. simpl. rewrite Hfind.
  reflexivity.
Qed.

Lemma PromoteSubscribers_resolver_empty (w0 : World) (stage : Stage) (w3 w4 : World) :
  reachesResolver s req w0 stage w3 ->
  findStageSubscribersFn s stage w3 = (([], None), w4) ->
  run (start w0)
  = ((None,
      Some (connectError CodeNotFound
              (Some (errorString
                       ("Stage " ++ q (GetStage req) ++ " has no subscribers")%string)))),
     {| world := w4; calls := prefixCalls req stage |}).
Proof.
  intros (w2 & f & Hreach & Hgate) Hfind.
  rewrite (PromoteSubscribers_at_gate quoteNonASCII ulidMake ToPromotionProto Hreach).
  cbv zeta. unfold invoke. simpl world. rewrite Hgate. simpl. rewrite Hfind.
  reflexivity.
Qed.

(** X1.  An error of the project validator is what the handler returns, as
    it is and not wrapped in a connect error; the response is nil and no
    other function field is called. *)
Theorem PromoteSubscribers_project_error (w0 w1 : World) (err : error) :
  GetProject req <> EmptyString ->
  GetStage req <> EmptyString ->
  validateProjectFn s (GetProject req) w0 = (Some err, w1) ->
  fst (run (start w0)) = (None, Some err)
  /\ calls (snd (run (start w0))) = [CallValidateProject (GetProject req)].
Proof.
  intros Hp Hs Hv. rewrite (PromoteSubscribers_project_fails w0 Hp Hs Hv).
  now split.
Qed.


Lemma not_found_names (x y : string) :
  GoStr.Contains ("Stage " ++ x ++ " not found in namespace " ++ y) x
  /\ GoStr.Contains ("Stage " ++ x ++ " not found in namespace " ++ y) y
  /\ GoStr.Contains ("Stage " ++ x ++ " not found in namespace " ++ y)
                    "not found in namespace".
Proof.
  split; [| split].
  - apply GoStrFacts.Contains_skip, GoStrFacts.Contains_here.
  - do 3 apply GoStrFacts.Contains_skip. apply GoStrFacts.Contains_refl.
  - do 2 apply GoStrFacts.Contains_skip. now exists " "%string, (" " ++ y)%string.
Qed.

(** X3.  When the Stage reader finds no Stage, the handler fails with
    NotFound; the message is "Stage S not found in namespace P" with the stage
    name and the project as [%q] prints them; and neither the gate, nor the
    resolver, nor the creator is called. *)
Theorem PromoteSubscribers_stage_not_found (w0 w1 w2 : World) :
  GetProject req <> EmptyString ->
  GetStage req <> EmptyString ->
  validateProjectFn s (GetProject req) w0 = (None, w1) ->
  getStageFn s skey w1 = ((None, None), w2) ->
  exists e,
    fst (run (start w0)) = (None, Some e)
    /\ Code_of e = Some CodeNotFound
    /\ Message e
       = ("Stage " ++ q (GetStage req) ++ " not found in namespace "
          ++ q (GetProject req))%string
    /\ GoStr.Contains (Message e) (q (GetStage req))
    /\ GoStr.Contains (Message e) (q (GetProject req))
    /\ GoStr.Contains (Message e) "not found in namespace"
    /\ calls (snd (run (start w0)))
       = [CallValidateProject (GetProject req); CallGetStage skey].
Proof.
  intros Hp Hs Hv Hg. rewrite (PromoteSubscribers_stage_absent w0 Hp Hs Hv Hg).
  destruct (not_found_names (q (GetStage req)) (q (GetProject req)))
    as (H1 & H2 & H3).
  eexists. split; [reflexivity |]. split; [reflexivity |]. split; [reflexivity |].
  split; [exact H1 |]. split; [exact H2 |]. split; [exact H3 | reflexivity].
Qed.

(** Every run either stops before the loop, with a nil response, an error
    and a log that is an initial part of the four calls before the loop, or
    reaches the loop with a non-empty list of subscribers. *)
Lemma PromoteSubscribers_cases (w0 : World) :
  (exists e stage k w',
     k <= 4
     /\ run (start w0)
        = ((None, Some e),
           {| world := w'; calls := firstn k (prefixCalls req stage) |}))
  \/ (exists stage w3 L w4,
        reachesResolver s req w0 stage w3
        /\ findStageSubscribersFn s stage w3 = ((L, None), w4)
        /\ L <> []).
Proof.
  destruct (validateProjectAndStageNonEmpty (GetProject req) (GetStage req))
    as [e |] eqn:Hval.
  { left. exists e, noStage, 0, w0. split; [lia |].
    unfold PromoteSubscribers. now rewrite Hval. }
  destruct (validate_None_inv _ _ Hval) as [Hp Hs].
  destruct (validateProjectFn s (GetProject req) w0) as [[e |] w1] eqn:Hv.
  { left. exists e, noStage, 1, w1. split; [lia |].
    now rewrite (PromoteSubscribers_project_fails w0 Hp Hs Hv). }
  destruct (getStageFn s skey w1) as [[o [e |]] w2] eqn:Hg.
  { left. eexists. exists noStage, 2, w2. split; [lia |].
    now rewrite (PromoteSubscribers_stage_error w0 Hp Hs Hv Hg). }
  destruct o as [stage |].
  2:{ left. eexists. exists noStage, 2, w2. split; [lia |].
      now rewrite (PromoteSubscribers_stage_absent w0 Hp Hs Hv Hg). }
  assert (Hreach : reachesGate s req w0 stage w2).
  { split; [exact Hp |]. split; [exact Hs |]. exists w1. now split. }
  destruct (getQualifiedFreightFn s fkey [GetStage req] w2) as [[o [e |]] w3] eqn:Hgate.
  { left. eexists. exists stage, 3, w3. split; [lia |].
    now rewrite (PromoteSubscribers_gate_error Hreach Hgate). }
  destruct o as [f |].
  2:{ left. eexists. exists stage, 3, w3. split; [lia |].
      now rewrite (PromoteSubscribers_gate_absent Hreach Hgate). }
  assert (Hres : reachesResolver s req w0 stage w3).
  { exists w2, f. now split. }
  destruct (findStageSubscribersFn s stage w3) as [[L [e |]] w4] eqn:Hfind.
  { left. eexists. exists stage, 4, w4. split; [lia |].
    now rewrite (PromoteSubscribers_resolver_error Hres Hfind). }
  destruct L as [| x L].
  { left. eexists. exists stage, 4, w4. split; [lia |].
    now rewrite (PromoteSubscribers_resolver_empty Hres Hfind). }
  right. exists stage, w3, (x :: L), w4. repeat split; try assumption. discriminate.
Qed.

Lemma firstn_prefix_no_create (stage : Stage) (k : nat) :
  filter isCreate (firstn k (prefixCalls req stage)) = [].
Proof. destruct k as [| [| [| [| [| k]]]]]; reflexivity. Qed.

Lemma attempts_nonempty (atts : list Attempt) (L : list Stage) :
  map att_subscriber atts = L -> L <> [] -> atts <> [].
Proof. intros <- H ->. now apply H. Qed.

(** X4.  The handler calls the function fields in one order: the project
    validator, the Stage reader, the gate, the resolver, then the creator
    once per pass of the loop.  It may stop after any of the first four, it
    calls the creator only after all four, and its response is nil exactly
    when the creator has not been called. *)
Theorem PromoteSubscribers_call_order (w0 : World) :
  exists stage k atts,
    k <= 4
    /\ calls (snd (run (start w0))) = firstn k (prefixCalls req stage) ++ created atts
    /\ (atts <> [] -> k = 4)
    /\ (fst (fst (run (start w0))) = None <-> atts = []).
Proof.
  destruct (PromoteSubscribers_cases w0)
    as [(e & stage & k & w' & Hk & Hrun) | (stage & w3 & L & w4 & Hres & Hfind & HL)].
  - exists stage, k, []. rewrite Hrun. simpl. rewrite app_nil_r.
    repeat split; try assumption; try reflexivity. intros H; now contradiction H.
  - destruct (PromoteSubscribers_attempts quoteNonASCII ulidMake ToPromotionProto
                Hres Hfind HL) as (atts & w' & Hrun & Hmap & _).
    exists stage, 4, atts. rewrite Hrun. simpl.
    split; [lia |]. split; [reflexivity |]. split; [reflexivity |].
    split; [discriminate |]. intros H. exfalso.
    exact (attempts_nonempty Hmap HL H).
Qed.

(** X5.  The creator is called only for a Freight that passed the gate:
    whenever the log of a run holds a call of the creator, the Stage was
    read, the gate returned a Freight for the requested freight name and the
    candidate list holding the requested stage name, and the Promotion
    handed to the creator names the requested Freight. *)
Theorem PromoteSubscribers_writes_only_qualified (w0 : World) (p : Promotion) :
  In (CallCreatePromotion p) (calls (snd (run (start w0)))) ->
  exists stage w2 f w3,
    reachesGate s req w0 stage w2
    /\ getQualifiedFreightFn s fkey [GetStage req] w2 = ((Some f, None), w3)
    /\ Promotion_Freight p = GetFreight req.
Proof.
  intros Hin.
  destruct (PromoteSubscribers_cases w0)
    as [(e & stage & k & w' & Hk & Hrun) | (stage & w3 & L & w4 & Hres & Hfind & HL)].
  - rewrite Hrun in Hin. simpl in Hin.
    assert (H : In (CallCreatePromotion p)
                  (filter isCreate (firstn k (prefixCalls req stage)))).
    { apply filter_In. now split. }
    rewrite firstn_prefix_no_create in H. contradiction.
  - destruct (PromoteSubscribers_attempts quoteNonASCII ulidMake ToPromotionProto
                Hres Hfind HL) as (atts & w' & Hrun & Hmap & Hall).
    destruct Hres as (w2 & f & Hreach & Hgate).
    exists stage, w2, f, w3. split; [exact Hreach |]. split; [exact Hgate |].
    rewrite Hrun in Hin. simpl in Hin.
    destruct Hin as [H | [H | [H | [H | H]]]]; try discriminate.
    apply in_map_iff in H as (a & Ha & Hina). injection Ha as <-.
    rewrite Forall_forall in Hall. destruct (Hall a Hina) as [[ident ->] _].
    reflexivity.
Qed.

Lemma failures_nil_succeeded (atts : list Attempt) :
  failures atts = [] -> succeeded atts = atts.
Proof.
  induction atts as [| a atts IH]; simpl; [reflexivity |].
  unfold att_ok. destruct (att_err a); simpl; [discriminate |].
  intros H. now rewrite (IH H).
Qed.

Lemma all_failed (atts : list Attempt) :
  Forall (fun a => att_err a <> None) atts ->
  succeeded atts = [] /\ length (failures atts) = length atts.
Proof.
  induction 1 as [| a atts Ha _ [IH1 IH2]]; simpl; [now split |].
  unfold att_ok. destruct (att_err a); [| contradiction]. simpl. now rewrite IH1, IH2.
Qed.

Lemma none_failed (atts : list Attempt) :
  Forall (fun a => att_err a = None) atts -> failures atts = [].
Proof.
  induction 1 as [| a atts Ha _ IH]; simpl; [reflexivity |]. now rewrite Ha.
Qed.


(** X7.  Total failure and total success of the loop.  When the creator
    fails for every Promotion, the response is not nil but holds no
    Promotion, and the Internal error joins one failure per subscriber.
    When the creator never fails, there is no error and the response holds
    one Promotion per subscriber. *)
Theorem PromoteSubscribers_all_or_nothing
    (w0 : World) (stage : Stage) (w3 : World) (L : list Stage) (w4 : World) :
  reachesResolver s req w0 stage w3 ->
  findStageSubscribersFn s stage w3 = ((L, None), w4) ->
  L <> [] ->
  ((forall p w, snd (fst (createPromotionFn s p w)) <> None) ->
   exists res e,
     fst (run (start w0)) = (Some res, Some e)
     /\ Promotions res = []
     /\ Code_of e = Some CodeInternal
     /\ length (joinedErrors (Some e)) = length L)
  /\ ((forall p w, snd (fst (createPromotionFn s p w)) = None) ->
      exists res,
        fst (run (start w0)) = (Some res, None)
        /\ length (Promotions res) = length L).
Proof.
  intros Hres Hfind HL.
  destruct (PromoteSubscribers_attempts quoteNonASCII ulidMake ToPromotionProto
              Hres Hfind HL) as (atts & w' & Hrun & Hmap & Hall).
  rewrite Hrun. cbn [fst]. split; intros Hc.
  - assert (Hf : Forall (fun a => att_err a <> None) atts).
    { apply Forall_impl with (2 := Hall). intros a [_ [w Hw]].
      specialize (Hc (att_built a) w). rewrite Hw in Hc. exact Hc. }
    destruct (all_failed Hf) as [Hs Hlen].
    assert (Hne : failures atts <> []).
    { intros H. rewrite H in Hlen. simpl in Hlen.
      apply (attempts_nonempty Hmap HL). now apply length_zero_iff_nil. }
    destruct (failures atts) as [| e0 fs] eqn:Hfs; [now contradiction Hne |].
    do 2 eexists. split; [reflexivity |]. rewrite Hs. split; [reflexivity |].
    split; [reflexivity |]. cbn [joinedErrors]. rewrite Hlen, <- Hmap, length_map.
    reflexivity.
  - assert (Hf : Forall (fun a => att_err a = None) atts).
    { apply Forall_impl with (2 := Hall). intros a [_ [w Hw]].
      specialize (Hc (att_built a) w). rewrite Hw in Hc. exact Hc. }
    rewrite (none_failed Hf). eexists. split; [reflexivity |]. cbn [Promotions].
    rewrite (failures_nil_succeeded atts (none_failed Hf)), length_map.
    rewrite <- Hmap, length_map. reflexivity.
Qed.

End HandlerPaths.

(** ** Further properties of findStageSubscribers *)

Lemma scanUpstreams_repeat (upstreams : list StageSubscription) (x : Stage)
    (name : string) :
  scanUpstreams upstreams x name []
  = repeat x (count_occ string_dec (map StageSubscription_Name upstreams) name).
Proof.
  induction upstreams as [| u rest IH]; simpl; [reflexivity |].
  destruct (String.eqb_spec (StageSubscription_Name u) name) as [E | E].
  - rewrite scanUpstreams_acc, IH.
    destruct (string_dec (StageSubscription_Name u) name); [reflexivity | contradiction].
  - rewrite IH.
    destruct (string_dec (StageSubscription_Name u) name); [contradiction | reflexivity].
Qed.

Lemma contribution_repeat (name : string) (x : Stage) :
  contribution name x = repeat x (upstreamCount name x).
Proof.
  unfold contribution, upstreamCount, upstreamNames.
  destruct (Stage_Spec x) as [spec |]; [| reflexivity].
  destruct (StageSpec_Subscriptions spec) as [subs |]; [| reflexivity].
  apply scanUpstreams_repeat.
Qed.

Lemma flat_map_contribution (name : string) (items : list Stage) :
  flat_map (contribution name) items
  = flat_map (fun x => repeat x (upstreamCount name x)) items.
Proof.
  induction items as [| x items IH]; simpl; [reflexivity |].
  now rewrite contribution_repeat, IH.
Qed.

Lemma length_flat_map_repeat (name : string) (items : list Stage) :
  length (flat_map (fun x => repeat x (upstreamCount name x)) items)
  = list_sum (map (upstreamCount name) items).
Proof.
  induction items as [| x items IH]; simpl; [reflexivity |].
  now rewrite length_app, repeat_length, IH.
Qed.

Lemma flat_map_repeat_filter (name : string) (items : list Stage) :
  (forall x, In x items -> upstreamCount name x <= 1) ->
  flat_map (fun x => repeat x (upstreamCount name x)) items
  = filter (fun x => 0 <? upstreamCount name x) items.
Proof.
  induction items as [| x items IH]; intros H; simpl; [reflexivity |].
  rewrite IH by (intros y Hy; apply H; now right).
  assert (Hx : upstreamCount name x <= 1) by (apply H; now left).
  destruct (upstreamCount name x) as [| [| n]]; simpl; [reflexivity | reflexivity | lia].
Qed.

Lemma scanStages_panics (items : list Stage) (stage : Stage) (x : Stage) :
  In x items -> Stage_Spec x = None ->
  forall acc, scanStages items stage acc = Panics.
Proof.
  induction items as [| y items IH]; intros Hin Hx acc; [contradiction |].
  simpl. destruct Hin as [-> | Hin]; [now rewrite Hx |].
  destruct (Stage_Spec y) as [spec |]; [| reflexivity].
  destruct (StageSpec_Subscriptions spec); now apply IH.
Qed.

Section ResolverEdges.

Variable World : Type.
Variable s : server World.
Variable stage : Stage.

(** X8.  When the listing of the namespace fails, findStageSubscribers
    returns no Stage and an Internal error that carries the failure; the
    Stages that came with the error are not looked at. *)
Theorem findStageSubscribers_list_error (w : World) (items : list Stage)
    (err : error) (w1 : World) :
  client_List s (Stage_Namespace stage) w = ((items, Some err), w1) ->
  findStageSubscribers s stage (start w)
  = (Returns ([], Some (connectError CodeInternal (Some err))),
     {| world := w1; calls := [CallClientList (Stage_Namespace stage)] |}).
Proof.
  intros Hlist. unfold findStageSubscribers, bind, invoke, start, ret. simpl.
  now rewrite Hlist.
Qed.

(** X9.  A listed Stage whose [Spec] is nil makes findStageSubscribers
    panic, wherever it stands in the listing and whatever the other Stages
    are: the scan reads [s.Spec.Subscriptions] without a check of [s.Spec]. *)
Theorem findStageSubscribers_nil_spec_panics (w : World) (items : list Stage)
    (w1 : World) (x : Stage) :
  client_List s (Stage_Namespace stage) w = ((items, None), w1) ->
  In x items ->
  Stage_Spec x = None ->
  fst (findStageSubscribers s stage (start w)) = Panics.
Proof.
  intros Hlist Hin Hx. unfold findStageSubscribers, bind, invoke, start, ret. simpl.
  rewrite Hlist. simpl. now rewrite (scanStages_panics items stage x Hin Hx []).
Qed.

(** X10.  The result of findStageSubscribers is the listing, in its order,
    with every Stage repeated as many times as it has upstream entries that
    bear the name of the given Stage (so a Stage without such an entry is
    dropped); its length is the number of such entries in the whole
    listing. *)
Theorem findStageSubscribers_multiplicity (w : World) (items : list Stage)
    (w1 : World) :
  client_List s (Stage_Namespace stage) w = ((items, None), w1) ->
  Forall hasSpec items ->
  exists subs,
    fst (findStageSubscribers s stage (start w)) = Returns (subs, None)
    /\ subs = flat_map (fun x => repeat x (upstreamCount (Stage_Name stage) x)) items
    /\ length subs = list_sum (map (upstreamCount (Stage_Name stage)) items).
Proof.
  intros Hlist Hall. eexists.
  rewrite (@findStageSubscribers_run World s stage w items w1 Hlist Hall).
  split; [reflexivity |]. rewrite flat_map_contribution.
  split; [reflexivity | apply length_flat_map_repeat].
Qed.

(** X11.  When no listed Stage names the given Stage in more than one
    upstream entry, findStageSubscribers returns exactly the listed Stages
    that name it, each once and in the order of the listing; if moreover the
    listing has no duplicates, neither has the result. *)
Theorem findStageSubscribers_filter (w : World) (items : list Stage) (w1 : World) :
  client_List s (Stage_Namespace stage) w = ((items, None), w1) ->
  Forall hasSpec items ->
  (forall x, In x items -> upstreamCount (Stage_Name stage) x <= 1) ->
  fst (findStageSubscribers s stage (start w))
  = Returns (filter (fun x => 0 <? upstreamCount (Stage_Name stage) x) items, None)
  /\ (NoDup items ->
      NoDup (filter (fun x => 0 <? upstreamCount (Stage_Name stage) x) items)).
Proof.
  intros Hlist Hall Hone.
  rewrite (@findStageSubscribers_run World s stage w items w1 Hlist Hall).
  rewrite flat_map_contribution, (flat_map_repeat_filter _ _ Hone).
  split; [reflexivity | apply NoDup_filter].
Qed.

End ResolverEdges.

(** * The [delete stage] command *)

Module DeleteStageFacts.
Import DeleteStage.

Lemma Compact_cons (a b : string) (l : list string) :
  Compact (a :: b :: l)
  = if String.eqb a b then Compact (b :: l) else a :: Compact (b :: l).
Proof. reflexivity. Qed.

Lemma Compact_In (l : list string) (x : string) : In x (Compact l) <-> In x l.
Proof.
  induction l as [| a l IH]; [simpl; tauto |].
  destruct l as [| b l]; [simpl; tauto |].
  rewrite Compact_cons. destruct (String.eqb_spec a b) as [-> | E].
  - rewrite IH. simpl. tauto.
  - simpl In at 1. rewrite IH. simpl. tauto.
Qed.

Lemma Compact_head (a : string) (l : list string) :
  exists rest, Compact (a :: l) = a :: rest.
Proof.
  revert a. induction l as [| b l IH]; intros a; [now exists [] |].
  rewrite Compact_cons. destruct (String.eqb_spec a b) as [-> | E].
  - apply IH.
  - now eexists.
Qed.

Lemma Compact_noAdjacentDup (l : list string) : noAdjacentDup (Compact l) = true.
Proof.
  induction l as [| a l IH]; [reflexivity |].
  destruct l as [| b l]; [reflexivity |].
  rewrite Compact_cons. destruct (String.eqb_spec a b) as [-> | E]; [exact IH |].
  destruct (Compact_head b l) as [rest Hrest]. rewrite Hrest in IH |- *.
  change (negb (String.eqb a b) && noAdjacentDup (b :: rest) = true).
  rewrite IH. destruct (String.eqb_spec a b); [contradiction | reflexivity].
Qed.

Lemma Compact_fixed (l : list string) : noAdjacentDup l = true -> Compact l = l.
Proof.
  induction l as [| a l IH]; [reflexivity |].
  destruct l as [| b l]; [reflexivity |].
  rewrite Compact_cons.
  change (negb (String.eqb a b) && noAdjacentDup (b :: l) = true
          -> (if String.eqb a b then Compact (b :: l) else a :: Compact (b :: l))
             = a :: b :: l).
  destruct (String.eqb a b); [discriminate |]. simpl negb. simpl andb.
  intros H. now rewrite (IH H).
Qed.

Lemma Compact_length (l : list string) : length (Compact l) <= length l.
Proof.
  induction l as [| a l IH]; [reflexivity |].
  destruct l as [| b l]; [reflexivity |].
  rewrite Compact_cons. destruct (String.eqb a b).
  - simpl length in *. lia.
  - change (S (length (Compact (b :: l))) <= S (length (b :: l))). lia.
Qed.

Lemma joinLines_merge (a b : string) (l : list string) :
  joinLines ((a ++ GoStr.newline ++ b)%string :: l) = joinLines (a :: b :: l).
Proof.
  destruct l as [| c l]; [reflexivity |].
  change (((a ++ GoStr.newline ++ b) ++ GoStr.newline ++ joinLines (c :: l))%string
          = (a ++ GoStr.newline ++ b ++ GoStr.newline ++ joinLines (c :: l))%string).
  now rewrite !GoStrFacts.app_assoc.
Qed.

Lemma joinAll_some (fails : list error) :
  forall r, exists e,
    joinAll (Some r) fails = Some e
    /\ cliText e = joinLines (cliText r :: map wrapText fails).
Proof.
  induction fails as [| f fails IH]; intros r; simpl.
  - now exists r.
  - destruct (IH (Joined [r; Wrap f "Error"])) as (e & He & Ht).
    exists e. split; [exact He |]. rewrite Ht.
    change (cliText (Joined [r; Wrap f "Error"]))
      with (cliText r ++ GoStr.newline ++ wrapText f)%string.
    apply joinLines_merge.
Qed.

(** The error after the loop: nil when nothing failed, and otherwise an
    error whose text has one line per failure, in the order of the
    failures. *)
Lemma joinAll_text (fails : list error) :
  match joinAll None fails with
  | None => fails = []
  | Some e => fails <> [] /\ cliText e = joinLines (map wrapText fails)
  end.
Proof.
  destruct fails as [| f fails]; [reflexivity |].
  unfold joinAll. simpl fold_left.
  destruct (joinAll_some fails (Joined [Wrap f "Error"])) as (e & He & Ht).
  unfold joinAll in He. rewrite He. split; [discriminate |]. exact Ht.
Qed.

End DeleteStageFacts.

Section DeleteCommand.
Import DeleteStage.

Variable World : Type.
Variable quoteNonASCII : string -> string.
Variable env : Env World.

Abbreviation line := (deletedLine quoteNonASCII).
Abbreviation runE := (RunE quoteNonASCII env).

(** [r] is a name with the answer of the service to the request for it. *)
Abbreviation answered project :=
  (fun r : string * option error =>
     exists w, fst (DeleteStageRPC env project (fst r) w) = snd r).

Lemma deleted_failed_length (rs : list (string * option error)) :
  length (filter deleted rs) + length (flat_map failed rs) = length rs.
Proof.
  induction rs as [| [n [e |]] rs IH]; [reflexivity | |].
  - change (length (filter deleted rs) + S (length (flat_map failed rs))
            = S (length rs)). lia.
  - change (S (length (filter deleted rs)) + length (flat_map failed rs)
            = S (length rs)). lia.
Qed.

(** Every pass sends one request and then either joins the failure to
    [resErr] or prints a line. *)
Lemma deleteLoop_run (project : string) (names : list string) :
  forall (resErr : option cliError) (t : Term World),
  exists rs w',
    map fst rs = names
    /\ Forall (answered project) rs
    /\ deleteLoop quoteNonASCII env project names resErr t
       = (joinAll resErr (flat_map failed rs),
          {| tworld := w';
             requests := requests t ++ map (pair project) names;
             out := (out t ++ appendAll (map line (map fst (filter deleted rs))))%string |}).
Proof.
  induction names as [| name rest IH]; intros resErr t.
  - exists [], (tworld t). simpl. rewrite app_nil_r, GoStrFacts.app_nil_r.
    destruct t. repeat split. constructor.
  - simpl. destruct (DeleteStageRPC env project name (tworld t)) as [o w1] eqn:Hrpc.
    assert (Ha : answered project (name, o)).
    { exists (tworld t). simpl. now rewrite Hrpc. }
    destruct o as [e |].
    + destruct (IH (Join2 resErr (Wrap e "Error"))
                  {| tworld := w1; requests := requests t ++ [(project, name)];
                     out := out t |}) as (rs & w' & Hmap & Hall & Hrun).
      exists ((name, Some e) :: rs), w'. rewrite Hrun. simpl.
      rewrite <- app_assoc. simpl.
      repeat split; [now rewrite Hmap | now constructor].
    + destruct (IH resErr
                  {| tworld := w1; requests := requests t ++ [(project, name)];
                     out := (out t ++ line name)%string |})
        as (rs & w' & Hmap & Hall & Hrun).
      exists ((name, None) :: rs), w'. rewrite Hrun. simpl.
      rewrite <- app_assoc, GoStrFacts.app_assoc. simpl.
      repeat split; [now rewrite Hmap | now constructor].
Qed.

(** With a client and a project, the command is the loop over the compacted
    arguments. *)
Lemma RunE_loop (optProject : option string) (args : list string) (w w1 : World)
    (project : string) :
  GetClientFromConfig env w = (None, w1) ->
  OrElse optProject EmptyString = project ->
  project <> EmptyString ->
  runE optProject args (fresh w)
  = deleteLoop quoteNonASCII env project (Compact args) None (fresh w1).
Proof.
  intros Hc Hp Hne. unfold RunE, fresh. simpl. rewrite Hc, Hp.
  destruct project; [contradiction | reflexivity].
Qed.

(** X12.  With a client and a project, the command sends one DeleteStage
    request for every run of equal consecutive arguments, in the order of the
    arguments and whatever the service answers: every argument is requested,
    no two consecutive requests name the same Stage, and arguments without
    equal neighbours are requested one by one, so a name that comes back
    after another name is requested again. *)
Theorem RunE_requests (optProject : option string) (args : list string)
    (w w1 : World) (project : string) :
  GetClientFromConfig env w = (None, w1) ->
  OrElse optProject EmptyString = project ->
  project <> EmptyString ->
  requests (snd (runE optProject args (fresh w))) = map (pair project) (Compact args)
  /\ (forall name,
        In name args <-> In (project, name) (requests (snd (runE optProject args (fresh w)))))
  /\ noAdjacentDup (map snd (requests (snd (runE optProject args (fresh w))))) = true
  /\ (noAdjacentDup args = true ->
      requests (snd (runE optProject args (fresh w))) = map (pair project) args)
  /\ length (requests (snd (runE optProject args (fresh w)))) <= length args.
Proof.
  intros Hc Hp Hne. rewrite (@RunE_loop optProject args w w1 project Hc Hp Hne).
  destruct (deleteLoop_run project (Compact args) None (fresh w1))
    as (rs & w' & _ & _ & Hrun).
  rewrite Hrun. cbn [snd requests fresh app].
  split; [reflexivity |]. split; [| split; [| split]].
  - intros name. rewrite <- (DeleteStageFacts.Compact_In args name), in_map_iff. split.
    + intros H. now exists name.
    + intros (n & Hn & Hin). now injection Hn as <-.
  - rewrite map_map. simpl. rewrite map_id. apply DeleteStageFacts.Compact_noAdjacentDup.
  - intros H. now rewrite (DeleteStageFacts.Compact_fixed args H).
  - rewrite length_map. apply DeleteStageFacts.Compact_length.
Qed.

(** X13.  With a client and a project, the command prints one
    "Stage Deleted" line for every request the service accepted, in order,
    and returns nil exactly when no request failed; otherwise the text of the
    returned error has one line "Error: " and the text of the failure per
    failed request, in order.  Printed lines and failures together are as
    many as the requests. *)
Theorem RunE_outcome (optProject : option string) (args : list string)
    (w w1 : World) (project : string) :
  GetClientFromConfig env w = (None, w1) ->
  OrElse optProject EmptyString = project ->
  project <> EmptyString ->
  exists rs,
    map fst rs = Compact args
    /\ Forall (answered project) rs
    /\ out (snd (runE optProject args (fresh w)))
       = appendAll (map line (map fst (filter deleted rs)))
    /\ match fst (runE optProject args (fresh w)) with
       | None => flat_map failed rs = []
       | Some e =>
           flat_map failed rs <> []
           /\ cliText e = joinLines (map wrapText (flat_map failed rs))
       end
    /\ length (filter deleted rs) + length (flat_map failed rs)
       = length (requests (snd (runE optProject args (fresh w)))).
Proof.
  intros Hc Hp Hne. rewrite (@RunE_loop optProject args w w1 project Hc Hp Hne).
  destruct (deleteLoop_run project (Compact args) None (fresh w1))
    as (rs & w' & Hmap & Hall & Hrun).
  exists rs. rewrite Hrun. cbn [fst snd out requests fresh app].
  split; [exact Hmap |]. split; [exact Hall |]. split; [reflexivity |].
  split; [apply DeleteStageFacts.joinAll_text |].
  rewrite deleted_failed_length, length_map, <- Hmap, length_map. reflexivity.
Qed.

(** X14.  The two early exits of the command.  When the client cannot be
    read from the configuration, the command returns the error
    "get client from config" (the cause is not kept), whatever the project
    and the arguments are.  With a client but without a project (the option
    is unset or set to the empty string), it returns the error
    "project is required".  In both cases it sends no request and prints
    nothing. *)
Theorem RunE_early_exits (optProject : option string) (args : list string)
    (w w1 : World) :
  (forall err,
     GetClientFromConfig env w = (Some err, w1) ->
     runE optProject args (fresh w) = (Some (New "get client from config"), fresh w1))
  /\ (GetClientFromConfig env w = (None, w1) ->
      optProject = None \/ optProject = Some EmptyString ->
      runE optProject args (fresh w) = (Some (New "project is required"), fresh w1)).
Proof.
  split.
  - intros err Hc. unfold RunE, fresh. simpl. now rewrite Hc.
  - intros Hc Hp. unfold RunE, fresh. simpl. rewrite Hc.
    destruct Hp as [-> | ->]; reflexivity.
Qed.

End DeleteCommand.

(** * PromoteStage and its test *)

Section StageTest.

Variable World : Type.
Variable quoteNonASCII : string -> string.
Variable ulidMake : World -> string * World.
Variable PromotionProto : Type.
Variable ToPromotionProto : Promotion -> PromotionProto.
Variable s : server World.
Variable r : PromoteStageRequest.

Abbreviation q := (GoStr.quote quoteNonASCII).
Abbreviation runStage := (PromoteStage quoteNonASCII ulidMake ToPromotionProto s r).
Abbreviation key :=
  {| nn_Namespace := stageReq_GetProject r; nn_Name := stageReq_GetName r |}.
Abbreviation fkey :=
  {| nn_Namespace := stageReq_GetProject r; nn_Name := stageReq_GetFreight r |}.

Lemma stage_word (x y : string) :
  GoStr.Contains ("Stage " ++ x ++ " not found in namespace " ++ y) "Stage".
Proof. now exists ""%string, (" " ++ x ++ " not found in namespace " ++ y)%string. Qed.

Lemma found_in_namespace (x y : string) :
  GoStr.Contains ("no qualified Freight " ++ x ++ " found in namespace " ++ y)
                 "found in namespace".
Proof.
  do 2 apply GoStrFacts.Contains_skip. now exists " "%string, (" " ++ y)%string.
Qed.

(** X15.  PromoteStage, as modelled from the spec, behaves as the cases of
    TestPromoteStage assert, for every request with a project and a stage
    name and for every error [err]: an error of the project validator is
    returned as it is; an error of the Stage reader, of the gate or of the
    creator gives an Internal error whose message is the text of [err]; a
    missing Stage gives NotFound with "Stage" and "not found in namespace" in
    the message; an absent Freight gives NotFound with "no qualified Freight"
    and "found in namespace"; and when everything succeeds the response holds
    the Promotion, which was written once. *)
Theorem PromoteStage_meets_tests (w0 : World) (err : error) :
  stageReq_GetProject r <> EmptyString ->
  stageReq_GetName r <> EmptyString ->
  (forall w1,
     validateProjectFn s (stageReq_GetProject r) w0 = (Some err, w1) ->
     fst (runStage (start w0)) = (None, Some err))
  /\ (forall w1 w2 o,
        validateProjectFn s (stageReq_GetProject r) w0 = (None, w1) ->
        getStageFn s key w1 = ((o, Some err), w2) ->
        fst (runStage (start w0)) = (None, Some (connectError CodeInternal (Some err))))
  /\ (forall w1 w2,
        validateProjectFn s (stageReq_GetProject r) w0 = (None, w1) ->
        getStageFn s key w1 = ((None, None), w2) ->
        exists e,
          fst (runStage (start w0)) = (None, Some e)
          /\ Code_of e = Some CodeNotFound
          /\ GoStr.Contains (Message e) "Stage"
          /\ GoStr.Contains (Message e) "not found in namespace")
  /\ (forall w1 stage w2,
        validateProjectFn s (stageReq_GetProject r) w0 = (None, w1) ->
        getStageFn s key w1 = ((Some stage, None), w2) ->
        let stages := stageReq_GetName r :: upstreamNames stage in
        (forall o w3,
           getQualifiedFreightFn s fkey stages w2 = ((o, Some err), w3) ->
           fst (runStage (start w0))
           = (None, Some (connectError CodeInternal (Some err))))
        /\ (forall w3,
              getQualifiedFreightFn s fkey stages w2 = ((None, None), w3) ->
              exists e,
                fst (runStage (start w0)) = (None, Some e)
                /\ Code_of e = Some CodeNotFound
                /\ GoStr.Contains (Message e) "no qualified Freight"
                /\ GoStr.Contains (Message e) "found in namespace"
                /\ filter isCreate (calls (snd (runStage (start w0)))) = [])
        /\ (forall f w3 ident w4 p o w5,
              getQualifiedFreightFn s fkey stages w2 = ((Some f, None), w3) ->
              ulidMake w3 = (ident, w4) ->
              createPromotionFn s (buildPromotion stage (stageReq_GetFreight r) ident) w4
              = ((p, o), w5) ->
              filter isCreate (calls (snd (runStage (start w0))))
              = [CallCreatePromotion
                   (buildPromotion stage (stageReq_GetFreight r) ident)]
              /\ fst (runStage (start w0))
                 = match o with
                   | Some e => (None, Some (connectError CodeInternal (Some e)))
                   | None => (Some {| GetPromotion := ToPromotionProto p |}, None)
                   end))
  /\ Message (connectError CodeInternal (Some err)) = Error err.
Proof.
  intros Hp Hn.
  split; [| split; [| split; [| split; [| reflexivity]]]].
  - intros w1 Hv. unfold PromoteStage. rewrite (validate_nonempty Hp Hn).
    unfold bind, invoke, start, ret. simpl. now rewrite Hv.
  - intros w1 w2 o Hv Hg. unfold PromoteStage. rewrite (validate_nonempty Hp Hn).
    unfold bind, invoke, start, ret. simpl. rewrite Hv. simpl. now rewrite Hg.
  - intros w1 w2 Hv Hg. unfold PromoteStage. rewrite (validate_nonempty Hp Hn).
    unfold bind, invoke, start, ret. simpl. rewrite Hv. simpl. rewrite Hg. simpl.
    eexists. split; [reflexivity |]. split; [reflexivity |].
    split; [exact (stage_word (q (stageReq_GetName r)) (q (stageReq_GetProject r))) |].
    exact (proj2 (proj2 (not_found_names (q (stageReq_GetName r))
                                         (q (stageReq_GetProject r))))).
  - intros w1 stage w2 Hv Hg stages.
    rewrite (@PromoteStage_at_gate World quoteNonASCII ulidMake PromotionProto
               ToPromotionProto s r w0 w1 stage w2 Hp Hn Hv Hg).
    cbv zeta. fold stages.
    unfold invoke, NewPromotion, bind, freshName, ret. cbn [world calls].
    split; [| split].
    + intros o w3 Hgate. now rewrite Hgate.
    + intros w3 Hgate. rewrite Hgate. cbn [fst snd world calls].
      eexists. split; [reflexivity |]. split; [reflexivity |].
      split; [exact (not_qualified_Contains (q (stageReq_GetFreight r))
                       (q (stageReq_GetProject r))) |].
      split; [exact (found_in_namespace (q (stageReq_GetFreight r))
                       (q (stageReq_GetProject r))) | reflexivity].
    + intros f w3 ident w4 p o w5 Hgate Hid Hc. rewrite Hgate.
      cbn [fst snd world calls]. rewrite Hid. cbn [fst snd world calls].
      rewrite Hc. destruct o; now split.
Qed.

End StageTest.

(** * Runs of the stub servers, continued *)

Abbreviation runTest s :=
  (PromoteSubscribers Fake.quoteNonASCII Fake.ulidMake Fake.ToPromotionProto s
     TestCases.fakeSubscribersRequest (start 0)).

Lemma PromoteSubscribers_project_error_witness :
  fst (runTest (TestCases.testServer (Some TestCases.somethingWentWrong)
                  (None, None) (None, None) None))
  = (None, Some TestCases.somethingWentWrong).
Proof.
  apply (@PromoteSubscribers_project_error nat Fake.quoteNonASCII Fake.ulidMake
           Promotion Fake.ToPromotionProto
           (TestCases.testServer (Some TestCases.somethingWentWrong)
              (None, None) (None, None) None)
           TestCases.fakeSubscribersRequest 0 0 TestCases.somethingWentWrong);
    [discriminate | discriminate | reflexivity].
Defined.


Lemma PromoteSubscribers_stage_not_found_witness :
  exists e,
    fst (runTest (TestCases.testServer None (None, None) (None, None) None))
    = (None, Some e)
    /\ Code_of e = Some CodeNotFound
    /\ GoStr.containsb (Message e) "fake-stage" = true
    /\ GoStr.containsb (Message e) "not found in namespace" = true.
Proof.
  destruct (@PromoteSubscribers_stage_not_found nat Fake.quoteNonASCII Fake.ulidMake
              Promotion Fake.ToPromotionProto
              (TestCases.testServer None (None, None) (None, None) None)
              TestCases.fakeSubscribersRequest 0 0 0
              ltac:(discriminate) ltac:(discriminate) eq_refl eq_refl)
    as (e & Hrun & Hcode & Hmsg & _ & _ & Hnf & _).
  exists e. split; [exact Hrun |]. split; [exact Hcode |].
  split; [rewrite Hmsg; reflexivity | now apply GoStrFacts.containsb_iff].
Defined.

Lemma PromoteSubscribers_call_order_witness :
  exists stage k atts,
    k <= 4
    /\ calls (snd (Fake.runSubscribers Fake.cascade Fake.fromA))
       = firstn k (prefixCalls Fake.fromA stage)
         ++ map (fun a => CallCreatePromotion (att_built a)) atts
    /\ (atts <> [] -> k = 4)
    /\ (fst (fst (Fake.runSubscribers Fake.cascade Fake.fromA)) = None <-> atts = []).
Proof.
  exact (@PromoteSubscribers_call_order nat Fake.quoteNonASCII Fake.ulidMake
           Promotion Fake.ToPromotionProto Fake.cascade Fake.fromA 0).
Defined.

Lemma PromoteSubscribers_writes_only_qualified_witness :
  exists stage w2 f w3,
    reachesGate Fake.cascade Fake.fromA 0 stage w2
    /\ getQualifiedFreightFn Fake.cascade
         {| nn_Namespace := "fake-project"; nn_Name := "fake-freight" |}
         ["A"%string] w2
       = ((Some f, None), w3)
    /\ Promotion_Freight (buildPromotion Fake.stageC "fake-freight" "ulid1")
       = "fake-freight"%string.
Proof.
  apply (@PromoteSubscribers_writes_only_qualified nat Fake.quoteNonASCII Fake.ulidMake
           Promotion Fake.ToPromotionProto Fake.cascade Fake.fromA 0
           (buildPromotion Fake.stageC "fake-freight" "ulid1")).
  do 5 right. left. reflexivity.
Defined.


Lemma PromoteSubscribers_all_or_nothing_witness :
  exists res e,
    fst (Fake.runSubscribers (cascadeWith (Some Fake.wentWrong)) Fake.fromA)
    = (Some res, Some e)
    /\ Promotions res = []
    /\ length (joinedErrors (Some e)) = 2.
Proof.
  destruct (@PromoteSubscribers_all_or_nothing nat Fake.quoteNonASCII Fake.ulidMake
              Promotion Fake.ToPromotionProto (cascadeWith (Some Fake.wentWrong))
              Fake.fromA 0 Fake.stageA 0 [Fake.stageB; Fake.stageC] 0)
    as [H _].
  - exists 0, Fake.fakeFreight. split; [| reflexivity].
    split; [discriminate |]. split; [discriminate |]. exists 0. now split.
  - reflexivity.
  - discriminate.
  - destruct H as (res & e & Hrun & Hnil & _ & Hlen); [intros p w; discriminate |].
    exists res, e. now repeat split.
Defined.

Lemma findStageSubscribers_list_error_witness :
  fst (findStageSubscribers
         (TestCases.testServer None (None, None) (None, None) None)
         Fake.stageA (start 0))
  = Returns ([], Some (connectError CodeInternal (Some TestCases.somethingWentWrong))).
Proof.
  rewrite (@findStageSubscribers_list_error nat
             (TestCases.testServer None (None, None) (None, None) None)
             Fake.stageA 0 [] TestCases.somethingWentWrong 0 eq_refl).
  reflexivity.
Defined.

Lemma findStageSubscribers_nil_spec_panics_witness :
  fst (findStageSubscribers
         (Fake.fakeServer None None [Fake.stageB; noStage; Fake.stageC] [])
         Fake.stageA (start 0))
  = Panics.
Proof.
  apply (@findStageSubscribers_nil_spec_panics nat
           (Fake.fakeServer None None [Fake.stageB; noStage; Fake.stageC] [])
           Fake.stageA 0 [Fake.stageA; Fake.stageB; noStage; Fake.stageC] 0 noStage
           eq_refl).
  - do 2 right. left. reflexivity.
  - reflexivity.
Defined.

Lemma findStageSubscribers_multiplicity_witness :
  exists subs,
    fst (findStageSubscribers
           (Fake.fakeServer None None [Fake.stageX; Fake.stageB] [])
           Fake.stageA (start 0))
    = Returns (subs, None)
    /\ length subs = 3.
Proof.
  destruct (@findStageSubscribers_multiplicity nat
              (Fake.fakeServer None None [Fake.stageX; Fake.stageB] [])
              Fake.stageA 0 [Fake.stageA; Fake.stageX; Fake.stageB] 0 eq_refl)
    as (subs & Hrun & _ & Hlen).
  - repeat constructor; discriminate.
  - exists subs. split; [exact Hrun |]. rewrite Hlen. reflexivity.
Defined.

Lemma findStageSubscribers_filter_witness :
  fst (findStageSubscribers Fake.cascade Fake.stageA (start 0))
  = Returns ([Fake.stageB; Fake.stageC], None).
Proof.
  destruct (@findStageSubscribers_filter nat Fake.cascade Fake.stageA 0
              [Fake.stageA; Fake.stageB; Fake.stageC] 0 eq_refl) as [Hrun _].
  - repeat constructor; discriminate.
  - intros x [<- | [<- | [<- | []]]]; vm_compute; lia.
  - rewrite Hrun. reflexivity.
Defined.

Lemma RunE_requests_witness :
  DeleteStage.requests (snd (DeleteStage.RunE Fake.quoteNonASCII
                   (DeleteStage.stubEnv None ["b"%string])
                   (Some "p"%string) ["a"; "a"; "b"; "a"]%string
                   (DeleteStage.fresh 0)))
  = [("p", "a"); ("p", "b"); ("p", "a")]%string.
Proof.
  destruct (@RunE_requests nat Fake.quoteNonASCII
              (DeleteStage.stubEnv None ["b"%string])
              (Some "p"%string) ["a"; "a"; "b"; "a"]%string 0 0 "p"%string
              eq_refl eq_refl ltac:(discriminate)) as [H _].
  rewrite H. reflexivity.
Defined.

Lemma RunE_outcome_witness :
  exists rs,
    map fst rs = ["a"; "b"; "a"]%string
    /\ length (filter DeleteStage.deleted rs) + length (flat_map DeleteStage.failed rs)
       = 3.
Proof.
  destruct (@RunE_outcome nat Fake.quoteNonASCII
              (DeleteStage.stubEnv None ["b"%string])
              (Some "p"%string) ["a"; "a"; "b"; "a"]%string 0 0 "p"%string
              eq_refl eq_refl ltac:(discriminate))
    as (rs & Hmap & _ & _ & _ & Hlen).
  exists rs. split; [exact Hmap |]. rewrite Hlen. reflexivity.
Defined.

Lemma RunE_early_exits_witness :
  DeleteStage.RunE Fake.quoteNonASCII
    (DeleteStage.stubEnv (Some Fake.wentWrong) [])
    None ["a"%string] (DeleteStage.fresh 0)
  = (Some (DeleteStage.New "get client from config"), DeleteStage.fresh 0)
  /\ DeleteStage.RunE Fake.quoteNonASCII (DeleteStage.stubEnv None [])
       (Some EmptyString) ["a"%string] (DeleteStage.fresh 0)
     = (Some (DeleteStage.New "project is required"), DeleteStage.fresh 0).
Proof.
  split.
  - apply (proj1 (@RunE_early_exits nat Fake.quoteNonASCII
                    (DeleteStage.stubEnv (Some Fake.wentWrong) [])
                    None ["a"%string] 0 0) Fake.wentWrong eq_refl).
  - apply (proj2 (@RunE_early_exits nat Fake.quoteNonASCII
                    (DeleteStage.stubEnv None [])
                    (Some EmptyString) ["a"%string] 0 0) eq_refl).
    right. reflexivity.
Defined.

(** The case "error getting Stage" of TestPromoteStage. *)
Lemma PromoteStage_meets_tests_witness :
  fst (Fake.runStage
         (TestCases.testServer None (None, Some TestCases.somethingWentWrong)
            (None, None) None)
         TestCases.fakeRequest)
  = (None, Some (connectError CodeInternal (Some TestCases.somethingWentWrong)))
  /\ Message (connectError CodeInternal (Some TestCases.somethingWentWrong))
     = "something went wrong"%string.
Proof.
  destruct (@PromoteStage_meets_tests nat Fake.quoteNonASCII Fake.ulidMake
              Promotion Fake.ToPromotionProto
              (TestCases.testServer None (None, Some TestCases.somethingWentWrong)
                 (None, None) None)
              TestCases.fakeRequest 0 TestCases.somethingWentWrong
              ltac:(discriminate) ltac:(discriminate))
    as (_ & H & _ & _ & Hmsg).
  split; [exact (H 0 0 None eq_refl eq_refl) | exact Hmsg].
Defined.
